(** * Token lifecycle of the Django auth-module example

    A shallow embedding of [apps/users/models.py], [apps/users/services.py],
    [apps/users/serializers.py], [apps/users/views.py] and
    [apps/users/permissions.py] (the auth-module example of the Django
    stack), and the properties of the credential and token lifecycle proved
    about it.

    The database is a record of tables (lists of rows); every service method
    is a computation in a small state-and-exception monad over that record.
    Whatever the code obtains from outside (the wall clock, the random
    source, the password hasher, the settings) is a field of [Env]: the
    [n]-th call of [timezone.now()] returns [clock env n], the [n]-th call of
    [secrets.token_urlsafe] returns [token_urlsafe env n]. *)

From Stdlib Require Import ZArith List String Ascii Bool Arith Lia.
Import ListNotations.

Local Open Scope string_scope.
Local Open Scope Z_scope.

(** ** Data model ([models.py]) *)

(** A [DateTimeField] value: microseconds since the epoch. *)
Definition datetime := Z.

(** [timedelta(hours=h)], in microseconds. *)
Definition timedelta_hours (h : Z) : Z := h * 3600 * 1000000.

(** [class User]. The primary key stands for the UUID. *)
Record User := mkUser {
  user_pk : nat;
  email : string;
  password : string;
  first_name : string;
  last_name : string;
  is_active : bool;
  is_staff : bool;
  email_verified : bool;
  updated_at : datetime;
  last_login_ip : option string
}.

(** [class PasswordResetToken] and [class EmailVerificationToken]: the two
    models declare the same columns. [user_id] is the foreign key. *)
Record Token := mkToken {
  token_pk : nat;
  user_id : nat;
  token : string;
  created_at : datetime;
  expires_at : datetime;
  used_at : option datetime
}.

(** The two token tables. *)
Inductive TokenModel := PasswordResetToken | EmailVerificationToken.

(** A call of [send_mail]: subject, recipients and the template context. *)
Record Mail := mkMail {
  subject : string;
  recipient_list : list string;
  context_url : string;
  context_expiry_hours : Z
}.

(** A refresh token the server tracks. *)
Record Session := mkSession {
  session_id : string;
  session_user : nat;
  session_issued_at : datetime;
  session_expires_at : datetime;
  revoked : bool
}.

(** The store, the dispatcher's log of calls, and how many times the clock,
    the random source and [uuid.uuid4] have been asked so far. *)
Record World := mkWorld {
  users : list User;
  password_reset_tokens : list Token;
  email_verification_tokens : list Token;
  outbox : list Mail;
  sessions : list Session;
  clock_reads : nat;
  random_draws : nat;
  uuid_draws : nat
}.

(** What the code takes from its surroundings. *)
Record Env := mkEnv {
  clock : nat -> datetime;
  token_urlsafe : nat -> string;
  make_password : string -> string;
  FRONTEND_URL : string
}.

(** ** The monad: state passing with exceptions

    A raised exception leaves the writes done so far in place (the code opens
    no transaction). *)

Inductive Exn :=
| IntegrityError
| MultipleObjectsReturned
| ValidationError (fields : list string)
| AuthenticationFailed
| TokenError.

Inductive Result (A : Type) :=
| Ok (a : A)
| Raise (e : Exn).

Arguments Ok {A} a.
Arguments Raise {A} e.

Definition M (A : Type) := World -> Result A * World.

Definition ret {A} (a : A) : M A := fun w => (Ok a, w).

Definition bind {A B} (c : M A) (k : A -> M B) : M B :=
  fun w => match c w with
           | (Ok a, w') => k a w'
           | (Raise e, w') => (Raise e, w')
           end.

Definition raise {A} (e : Exn) : M A := fun w => (Raise e, w).

Declare Scope monad_scope.
Delimit Scope monad_scope with monad.
Notation "x <- c ;; k" := (bind c (fun x => k))
  (at level 61, c at next level, right associativity) : monad_scope.
Notation "c ;; k" := (bind c (fun _ => k))
  (at level 61, right associativity) : monad_scope.
Local Open Scope monad_scope.

(** ** Row and table helpers *)

Definition is_null {A} (o : option A) : bool :=
  match o with None => true | Some _ => false end.

Definition set_used_at (t : datetime) (r : Token) : Token :=
  mkToken (token_pk r) (user_id r) (token r) (created_at r) (expires_at r) (Some t).

Definition set_password (h : string) (u : User) : User :=
  mkUser (user_pk u) (email u) h (first_name u) (last_name u) (is_active u)
         (is_staff u) (email_verified u) (updated_at u) (last_login_ip u).

Definition set_email_verified (b : bool) (u : User) : User :=
  mkUser (user_pk u) (email u) (password u) (first_name u) (last_name u)
         (is_active u) (is_staff u) b (updated_at u) (last_login_ip u).

Definition set_updated_at (t : datetime) (u : User) : User :=
  mkUser (user_pk u) (email u) (password u) (first_name u) (last_name u)
         (is_active u) (is_staff u) (email_verified u) t (last_login_ip u).

Definition set_last_login_ip (ip : option string) (u : User) : User :=
  mkUser (user_pk u) (email u) (password u) (first_name u) (last_name u)
         (is_active u) (is_staff u) (email_verified u) (updated_at u) ip.

Definition objects (T : TokenModel) (w : World) : list Token :=
  match T with
  | PasswordResetToken => password_reset_tokens w
  | EmailVerificationToken => email_verification_tokens w
  end.

Definition set_objects (T : TokenModel) (rows : list Token) (w : World) : World :=
  match T with
  | PasswordResetToken =>
      mkWorld (users w) rows (email_verification_tokens w) (outbox w)
              (sessions w) (clock_reads w) (random_draws w) (uuid_draws w)
  | EmailVerificationToken =>
      mkWorld (users w) (password_reset_tokens w) rows (outbox w)
              (sessions w) (clock_reads w) (random_draws w) (uuid_draws w)
  end.

Definition set_users (us : list User) (w : World) : World :=
  mkWorld us (password_reset_tokens w) (email_verification_tokens w) (outbox w)
          (sessions w) (clock_reads w) (random_draws w) (uuid_draws w).

(** [str.lower()] on the ASCII letters. *)
Definition lower_ascii (c : ascii) : ascii :=
  let n := nat_of_ascii c in
  if ((65 <=? n) && (n <=? 90))%nat then ascii_of_nat (n + 32) else c.

Fixpoint lower (s : string) : string :=
  match s with
  | EmptyString => EmptyString
  | String c s' => String (lower_ascii c) (lower s')
  end.

(** [if x:] on an optional string: [None] and [''] are falsy. *)
Definition truthy (o : option string) : bool :=
  match o with
  | None => false
  | Some s => negb (String.eqb s "")
  end.

(** [dict.get(key)]. *)
Fixpoint dict_get {A} (key : string) (d : list (string * A)) : option A :=
  match d with
  | [] => None
  | (k, v) :: d' => if String.eqb k key then Some v else dict_get key d'
  end.

Section Services.

Variable env : Env.

(** *** Primitive effects *)

(** [timezone.now()]. *)
Definition now : M datetime := fun w =>
  (Ok (clock env (clock_reads w)),
   mkWorld (users w) (password_reset_tokens w) (email_verification_tokens w)
           (outbox w) (sessions w) (S (clock_reads w)) (random_draws w)
           (uuid_draws w)).

(** [secrets.token_urlsafe(n)]. *)
Definition secrets_token_urlsafe : M string := fun w =>
  (Ok (token_urlsafe env (random_draws w)),
   mkWorld (users w) (password_reset_tokens w) (email_verification_tokens w)
           (outbox w) (sessions w) (clock_reads w) (S (random_draws w))
           (uuid_draws w)).

(** [uuid.uuid4()], the default of the primary keys: a key not handed out
    before. *)
Definition uuid4 : M nat := fun w =>
  (Ok (uuid_draws w),
   mkWorld (users w) (password_reset_tokens w) (email_verification_tokens w)
           (outbox w) (sessions w) (clock_reads w) (random_draws w)
           (S (uuid_draws w))).

(** [send_mail(...)]: the call is recorded. *)
Definition send_mail (m : Mail) : M unit := fun w =>
  (Ok tt,
   mkWorld (users w) (password_reset_tokens w) (email_verification_tokens w)
           (outbox w ++ [m]) (sessions w) (clock_reads w) (random_draws w)
           (uuid_draws w)).

(** *** The object manager *)

(** [Model.objects.filter(pred).update(used_at=t)]. *)
Definition objects_filter_update (T : TokenModel) (pred : Token -> bool)
    (upd : Token -> Token) : M unit := fun w =>
  (Ok tt,
   set_objects T (map (fun r => if pred r then upd r else r) (objects T w)) w).

(** [Model.objects.filter(pred).delete()]. *)
Definition objects_filter_delete (T : TokenModel) (pred : Token -> bool)
    : M unit := fun w =>
  (Ok tt, set_objects T (filter (fun r => negb (pred r)) (objects T w)) w).

(** [Model.objects.create(user=user, token=token, expires_at=expires_at)]:
    the primary key defaults to [uuid4()], [created_at] is stamped by
    [auto_now_add] when the row is saved, [used_at] is null. The insert is
    refused when the [token] column would lose its uniqueness or the foreign
    key has no row. *)
Definition objects_create (T : TokenModel) (user : User) (tok : string)
    (expires : datetime) : M Token :=
  pk <- uuid4 ;;
  created <- now ;;
  fun w =>
    if existsb (fun r => String.eqb (token r) tok) (objects T w)
       || negb (existsb (fun u => (user_pk u =? user_pk user)%nat) (users w))
    then (Raise IntegrityError, w)
    else
      let row := mkToken pk (user_pk user) tok created expires None in
      (Ok row, set_objects T (objects T w ++ [row]) w).

(** The row of the [users] table a token points to ([select_related('user')]
    joins the two tables). *)
Definition related_user (us : list User) (r : Token) : option User :=
  find (fun u => (user_pk u =? user_id r)%nat) us.

Definition select_related (us : list User) (rows : list Token)
    : list (Token * User) :=
  flat_map (fun r => match related_user us r with
                     | Some u => [(r, u)]
                     | None => []
                     end) rows.

(** [QuerySet.get()]: [None] stands for [DoesNotExist], which every caller
    here catches; more than one row raises. *)
Definition queryset_get {A} (rows : list A) : M (option A) :=
  match rows with
  | [] => ret None
  | [x] => ret (Some x)
  | _ => raise MultipleObjectsReturned
  end.

(** [instance.save()] of a token: the row with that primary key is
    rewritten. *)
Definition token_save (T : TokenModel) (r : Token) : M unit := fun w =>
  (Ok tt,
   set_objects T
     (map (fun r' => if (token_pk r' =? token_pk r)%nat then r else r')
          (objects T w)) w).

(** [user.save(update_fields=[field, 'updated_at'])]: [updated_at] is
    [auto_now], so it is stamped with the clock, and only the listed columns
    of the row are written. [write] copies the listed column from the
    instance. *)
Definition user_save_update_fields (user : User) (write : User -> User)
    : M unit :=
  t <- now ;;
  fun w =>
    (Ok tt,
     set_users
       (map (fun u => if (user_pk u =? user_pk user)%nat
                      then set_updated_at t (write u) else u)
            (users w)) w).

(** *** [class AuthService] *)

Definition PASSWORD_RESET_EXPIRY_HOURS : Z := 24.
Definition EMAIL_VERIFICATION_EXPIRY_HOURS : Z := 72.

Definition generate_token : M string := secrets_token_urlsafe.

Definition send_verification_email (user : User) : M unit :=
  (* Invalidate previous tokens *)
  t <- now ;;
  objects_filter_update EmailVerificationToken
    (fun r => (user_id r =? user_pk user)%nat && is_null (used_at r))
    (set_used_at t) ;;
  (* Create new token *)
  tok <- generate_token ;;
  t' <- now ;;
  let expires := t' + timedelta_hours EMAIL_VERIFICATION_EXPIRY_HOURS in
  _ <- objects_create EmailVerificationToken user tok expires ;;
  let verification_url := (FRONTEND_URL env ++ "/verify-email?token=" ++ tok)%string in
  send_mail (mkMail "Verify your email address" [email user] verification_url
                    EMAIL_VERIFICATION_EXPIRY_HOURS).

Definition verify_email (tok : string) : M bool :=
  t <- now ;;
  us <- (fun w => (Ok (users w), w)) ;;
  rows <- (fun w => (Ok (objects EmailVerificationToken w), w)) ;;
  found <- queryset_get
    (select_related us
       (filter (fun r => String.eqb (token r) tok && is_null (used_at r)
                         && (t <? expires_at r)) rows)) ;;
  match found with
  | Some (verification, user) =>
      (* Mark token as used *)
      t' <- now ;;
      token_save EmailVerificationToken (set_used_at t' verification) ;;
      (* Mark user email as verified *)
      user_save_update_fields user (set_email_verified true) ;;
      ret true
  | None => ret false
  end.

Definition send_password_reset_email (mail : string) : M unit :=
  us <- (fun w => (Ok (users w), w)) ;;
  found <- queryset_get
    (filter (fun u => String.eqb (email u) (lower mail) && is_active u) us) ;;
  match found with
  | None => (* Don't reveal if user exists *) ret tt
  | Some user =>
      (* Invalidate previous tokens *)
      t <- now ;;
      objects_filter_update PasswordResetToken
        (fun r => (user_id r =? user_pk user)%nat && is_null (used_at r))
        (set_used_at t) ;;
      (* Create new token *)
      tok <- generate_token ;;
      t' <- now ;;
      let expires := t' + timedelta_hours PASSWORD_RESET_EXPIRY_HOURS in
      _ <- objects_create PasswordResetToken user tok expires ;;
      let reset_url := (FRONTEND_URL env ++ "/reset-password?token=" ++ tok)%string in
      send_mail (mkMail "Reset your password" [email user] reset_url
                        PASSWORD_RESET_EXPIRY_HOURS)
  end.

Definition reset_password (tok new_password : string) : M bool :=
  t <- now ;;
  us <- (fun w => (Ok (users w), w)) ;;
  rows <- (fun w => (Ok (objects PasswordResetToken w), w)) ;;
  found <- queryset_get
    (select_related us
       (filter (fun r => String.eqb (token r) tok && is_null (used_at r)
                         && (t <? expires_at r)) rows)) ;;
  match found with
  | Some (reset_token, user) =>
      (* Mark token as used *)
      t' <- now ;;
      token_save PasswordResetToken (set_used_at t' reset_token) ;;
      (* Update password *)
      user_save_update_fields user (set_password (make_password env new_password)) ;;
      ret true
  | None => ret false
  end.

Definition cleanup_expired_tokens : M unit :=
  t <- now ;;
  objects_filter_delete PasswordResetToken (fun r => expires_at r <? t) ;;
  objects_filter_delete EmailVerificationToken (fun r => expires_at r <? t).

(** [Token.is_valid()] of both token models; [and] reads the clock only when
    [used_at] is null. *)
Definition is_valid (r : Token) : M bool :=
  if is_null (used_at r)
  then t <- now ;; ret (t <? expires_at r)
  else ret false.

End Services.

(** ** Requests, responses and the framework's parts *)

Unset Elimination Schemes.
Inductive Json :=
| JStr (s : string)
| JNat (n : nat)
| JBool (b : bool)
| JNull
| JObj (fields : list (string * Json)).
Set Elimination Schemes.

Record Request := mkRequest {
  data : list (string * string);
  META : list (string * string);
  request_user : option User
}.

Record Response := mkResponse {
  response_data : list (string * Json);
  status_code : nat
}.

Definition HTTP_200_OK : nat := 200.
Definition HTTP_400_BAD_REQUEST : nat := 400.

(** What the views take from Django REST framework, Django's validators and
    the JWT library: how a field cleans its input ([None] when it refuses
    it), the password validators, the password check and the encoding of a
    claim bundle; and the lifetime of a refresh token. *)
Record Framework := mkFramework {
  EmailField : string -> option string;
  CharField : string -> option string;
  validate_password : string -> bool;
  check_password : string -> string -> bool;
  jwt_encode : list (string * Json) -> string;
  REFRESH_TOKEN_LIFETIME : Z
}.

(** [try: c except Exception: h]. *)
Definition try_except {A} (c : M A) (h : M A) : M A :=
  fun w => match c w with
           | (Ok a, w') => (Ok a, w')
           | (Raise _, w') => h w'
           end.

(** [s.split(',')[0]]. *)
Fixpoint split_comma_first (s : string) : string :=
  match s with
  | EmptyString => EmptyString
  | String c s' =>
      if Ascii.eqb c ","%char then EmptyString
      else String c (split_comma_first s')
  end.

Definition is_space (c : ascii) : bool :=
  let n := nat_of_ascii c in
  ((n =? 32) || ((9 <=? n) && (n <=? 13)))%nat.

Fixpoint lstrip (s : string) : string :=
  match s with
  | EmptyString => EmptyString
  | String c s' => if is_space c then lstrip s' else s
  end.

Fixpoint string_rev (s : string) : string :=
  match s with
  | EmptyString => EmptyString
  | String c s' => (string_rev s' ++ String c EmptyString)%string
  end.

(** [str.strip()]. *)
Definition strip (s : string) : string :=
  string_rev (lstrip (string_rev (lstrip s))).

(** [User.full_name]. *)
Definition full_name (u : User) : string :=
  let s := strip (first_name u ++ " " ++ last_name u)%string in
  if String.eqb s "" then email u else s.

Section Views.

Variable env : Env.
Variable drf : Framework.

(** *** Serializers ([serializers.py]) *)

(** A declared field of a serializer: required, then cleaned. The result is
    the cleaned value, or the name of the field in error. *)
Definition run_field (clean : string -> option string) (name : string)
    (d : list (string * string)) : string + string :=
  match dict_get name d with
  | None => inr name
  | Some v => match clean v with
              | None => inr name
              | Some v' => inl v'
              end
  end.

Definition field_errors (rs : list (string + string)) : list string :=
  flat_map (fun r => match r with inl _ => [] | inr n => [n] end) rs.

(** [UserSerializer(user).data], on the columns of the model kept here. *)
Definition UserSerializer (u : User) : list (string * Json) :=
  [("id", JNat (user_pk u)); ("email", JStr (email u));
   ("first_name", JStr (first_name u)); ("last_name", JStr (last_name u));
   ("full_name", JStr (full_name u));
   ("email_verified", JBool (email_verified u))].

(** [PasswordResetRequestSerializer]: [validate_email] lower-cases. *)
Definition PasswordResetRequestSerializer (d : list (string * string))
    : M string :=
  match run_field (EmailField drf) "email" d with
  | inl v => ret (lower v)
  | inr n => raise (ValidationError [n])
  end.

(** [PasswordResetConfirmSerializer]: the fields, then [validate]. *)
Definition PasswordResetConfirmSerializer (d : list (string * string))
    : M (string * string) :=
  let tok := run_field (CharField drf) "token" d in
  let pw := run_field (fun v => match CharField drf v with
                                | Some v' => if validate_password drf v'
                                             then Some v' else None
                                | None => None
                                end) "new_password" d in
  let pw2 := run_field (CharField drf) "new_password_confirm" d in
  match tok, pw, pw2 with
  | inl tok', inl pw', inl pw2' =>
      if negb (String.eqb pw' pw2')
      then raise (ValidationError ["new_password_confirm"])
      else ret (tok', pw')
  | _, _, _ => raise (ValidationError (field_errors [tok; pw; pw2]))
  end.

(** [EmailVerificationSerializer]. *)
Definition EmailVerificationSerializer (d : list (string * string))
    : M string :=
  match run_field (CharField drf) "token" d with
  | inl v => ret v
  | inr n => raise (ValidationError [n])
  end.

(** [CustomTokenObtainPairSerializer.get_token]: the base claims with the
    custom ones added. *)
Definition get_token (base : User -> list (string * Json)) (user : User)
    : list (string * Json) :=
  (base user ++
  [("email", JStr (email user)); ("full_name", JStr (full_name user));
   ("email_verified", JBool (email_verified user));
   ("is_staff", JBool (is_staff user))])%list.

(** Modelled from the spec: the claims of [RefreshToken.for_user], which
    [super().get_token] returns (rest_framework_simplejwt is not part of the
    sources): the kind of token and the user id. *)
Definition RefreshToken_for_user (user : User) : list (string * Json) :=
  [("token_type", JStr "refresh"); ("user_id", JNat (user_pk user))].

(** Modelled from the spec: [TokenObtainPairSerializer.validate], the base
    class method that [CustomTokenObtainPairSerializer.validate] calls
    (rest_framework_simplejwt and Django's [authenticate] are not part of the
    sources). Section 4.3: look the user up by normalized email; absent or
    inactive fails with the generic [AuthenticationFailed]; otherwise the
    password is verified against the hash, a mismatch failing the same way;
    on success a session record is created, not revoked, expiring after the
    refresh lifetime, and the access and refresh tokens are returned. *)
Definition TokenObtainPairSerializer_validate (attrs : list (string * string))
    : M (User * list (string * Json)) :=
  match dict_get "email" attrs, dict_get "password" attrs with
  | Some mail, Some pw =>
      us <- (fun w => (Ok (users w), w)) ;;
      match find (fun u => String.eqb (email u) (lower mail)) us with
      | None => raise AuthenticationFailed
      | Some user =>
          if negb (is_active user) then raise AuthenticationFailed
          else if negb (check_password drf pw (password user))
          then raise AuthenticationFailed
          else
            t <- now env ;;
            let claims := get_token RefreshToken_for_user user in
            let refresh := jwt_encode drf claims in
            let access :=
              jwt_encode drf (("token_type", JStr "access") :: tl claims) in
            (fun w =>
               (Ok tt,
                mkWorld (users w) (password_reset_tokens w)
                  (email_verification_tokens w) (outbox w)
                  (sessions w ++
                   [mkSession refresh (user_pk user) t
                      (t + REFRESH_TOKEN_LIFETIME drf) false])
                  (clock_reads w) (random_draws w) (uuid_draws w))) ;;
            ret (user, [("refresh", JStr refresh); ("access", JStr access)])
      end
  | _, _ => raise (ValidationError ["email"; "password"])
  end.

(** [CustomTokenObtainPairSerializer.validate]. *)
Definition CustomTokenObtainPairSerializer_validate
    (attrs : list (string * string)) : M (list (string * Json)) :=
  r <- TokenObtainPairSerializer_validate attrs ;;
  let '(user, d) := r in
  (* Add user info to response *)
  ret (d ++ [("user", JObj (UserSerializer user))])%list.

(** Modelled from the spec: [RefreshToken(refresh_token)] followed by
    [token.blacklist()] (rest_framework_simplejwt is not part of the
    sources). Section 4.3: the session is marked revoked if found; an unknown
    or already revoked refresh id fails. *)
Definition RefreshToken_blacklist (refresh_token : string) : M unit :=
  fun w =>
    if existsb (fun s => String.eqb (session_id s) refresh_token
                         && negb (revoked s)) (sessions w)
    then
      (Ok tt,
       mkWorld (users w) (password_reset_tokens w)
         (email_verification_tokens w) (outbox w)
         (map (fun s => if String.eqb (session_id s) refresh_token
                        then mkSession (session_id s) (session_user s)
                               (session_issued_at s) (session_expires_at s) true
                        else s) (sessions w))
         (clock_reads w) (random_draws w) (uuid_draws w))
    else (Raise TokenError, w).

(** *** Views ([views.py]) *)

(** [LoginView.get_client_ip]. *)
Definition get_client_ip (request : Request) : option string :=
  let x_forwarded_for := dict_get "HTTP_X_FORWARDED_FOR" (META request) in
  match x_forwarded_for with
  | Some x => if truthy x_forwarded_for
              then Some (strip (split_comma_first x))
              else dict_get "REMOTE_ADDR" (META request)
  | None => dict_get "REMOTE_ADDR" (META request)
  end.

(** [TokenObtainPairView.post] with [serializer_class] set as [LoginView]
    sets it: the validated data, status 200. *)
Definition TokenObtainPairView_post (request : Request) : M Response :=
  d <- CustomTokenObtainPairSerializer_validate (data request) ;;
  ret (mkResponse d HTTP_200_OK).

(** [LoginView.post]. *)
Definition LoginView_post (request : Request) : M Response :=
  response <- TokenObtainPairView_post request ;;
  (* Update last login IP *)
  (if (status_code response =? 200)%nat
   then
     let mail := lower (match dict_get "email" (data request) with
                        | Some e => e
                        | None => ""
                        end) in
     let ip := get_client_ip request in
     fun w =>
       (Ok tt,
        set_users (map (fun u => if String.eqb (email u) mail
                                 then set_last_login_ip ip u else u)
                       (users w)) w)
   else ret tt) ;;
  ret response.

(** [LogoutView.post]. *)
Definition LogoutView_post (request : Request) : M Response :=
  try_except
    (let refresh_token := dict_get "refresh" (data request) in
     (match refresh_token with
      | Some tok => if truthy refresh_token
                    then RefreshToken_blacklist tok
                    else ret tt
      | None => ret tt
      end) ;;
     ret (mkResponse [("message", JStr "Logged out successfully.")]
                     HTTP_200_OK))
    (ret (mkResponse [("error", JStr "Invalid token.")] HTTP_400_BAD_REQUEST)).

(** [PasswordResetRequestView.post]. *)
Definition PasswordResetRequestView_post (request : Request) : M Response :=
  mail <- PasswordResetRequestSerializer (data request) ;;
  send_password_reset_email env mail ;;
  (* Always return success to prevent email enumeration *)
  ret (mkResponse
         [("message",
           JStr "If an account exists, a password reset email has been sent.")]
         HTTP_200_OK).

(** [PasswordResetConfirmView.post]. *)
Definition PasswordResetConfirmView_post (request : Request) : M Response :=
  v <- PasswordResetConfirmSerializer (data request) ;;
  let '(tok, new_password) := v in
  success <- reset_password env tok new_password ;;
  if (success : bool)
  then ret (mkResponse [("message", JStr "Password reset successfully.")]
                       HTTP_200_OK)
  else ret (mkResponse [("error", JStr "Invalid or expired token.")]
                       HTTP_400_BAD_REQUEST).

(** [EmailVerificationView.post]. *)
Definition EmailVerificationView_post (request : Request) : M Response :=
  tok <- EmailVerificationSerializer (data request) ;;
  success <- verify_email env tok ;;
  if (success : bool)
  then ret (mkResponse [("message", JStr "Email verified successfully.")]
                       HTTP_200_OK)
  else ret (mkResponse [("error", JStr "Invalid or expired token.")]
                       HTTP_400_BAD_REQUEST).

(** [ResendVerificationView.post]; the view is for authenticated requests,
    so [request.user] is a user. *)
Definition ResendVerificationView_post (user : User) : M Response :=
  if email_verified user
  then ret (mkResponse [("message", JStr "Email already verified.")]
                       HTTP_400_BAD_REQUEST)
  else
    send_verification_email env user ;;
    ret (mkResponse [("message", JStr "Verification email sent.")]
                    HTTP_200_OK).

End Views.

(** ** The rate limiter

    [views.py] only names the throttle classes and their rates; the limiter
    itself is Django REST framework's. *)

Module RateLimiter.

Inductive ThrottleClass := RegistrationThrottle | PasswordResetThrottle.

(** [rate = '5/hour'] and [rate = '3/hour']. *)
Definition rate (c : ThrottleClass) : string :=
  match c with
  | RegistrationThrottle => "5/hour"
  | PasswordResetThrottle => "3/hour"
  end.

Inductive Outcome := Allowed | Rejected.

(** A counter: when its window started and how many requests it has let
    through since. *)
Record Counter := mkCounter {
  window_start : Z;
  count : nat
}.

Definition Counters := list (string * Counter).

Definition digit_of (c : ascii) : option nat :=
  let n := nat_of_ascii c in
  if ((48 <=? n) && (n <=? 57))%nat then Some (n - 48)%nat else None.

Fixpoint parse_nat (acc : nat) (s : string) : option (nat * string) :=
  match s with
  | EmptyString => None
  | String c s' =>
      if Ascii.eqb c "/"%char then Some (acc, s')
      else match digit_of c with
           | Some d => parse_nat (10 * acc + d)%nat s'
           | None => None
           end
  end.

(** Modelled from the spec: how a rate is read (the parser is the
    framework's). ["N/hour"] is [N] requests per window of one hour; the
    window is in seconds. *)
Definition parse_rate (r : string) : option (nat * Z) :=
  match parse_nat 0 r with
  | Some (n, period) =>
      if String.eqb period "second" then Some (n, 1)
      else if String.eqb period "minute" then Some (n, 60)
      else if String.eqb period "hour" then Some (n, 3600)
      else if String.eqb period "day" then Some (n, 86400)
      else None
  | None => None
  end.

Fixpoint set_counter (key : string) (c : Counter) (st : Counters) : Counters :=
  match st with
  | [] => [(key, c)]
  | (k, c') :: st' =>
      if String.eqb k key then (k, c) :: st'
      else (k, c') :: set_counter key c st'
  end.

(** Modelled from the spec: the limiter (section 4.4). A per-key counter;
    the counter of a key starts afresh once the window has elapsed from the
    first request observed in it; a request beyond the limit inside the
    window is rejected, and counted for nothing. Times are in seconds. *)
Definition tryAcquire (key : string) (limit : nat) (window : Z) (t : Z)
    (st : Counters) : Outcome * Counters :=
  let c := match dict_get key st with
           | Some c => if t <? window_start c + window then c
                       else mkCounter t 0
           | None => mkCounter t 0
           end in
  if (count c <? limit)%nat
  then (Allowed, set_counter key (mkCounter (window_start c) (S (count c))) st)
  else (Rejected, st).

(** The requests of one key at the times [ts], in order. *)
Fixpoint requests (key : string) (limit : nat) (window : Z) (ts : list Z)
    (st : Counters) : list Outcome * Counters :=
  match ts with
  | [] => ([], st)
  | t :: ts' =>
      let '(o, st') := tryAcquire key limit window t st in
      let '(os, st'') := requests key limit window ts' st' in
      (o :: os, st'')
  end.

(** The gate of an endpoint: its class's rate, parsed, then the limiter. *)
Definition allow_requests (c : ThrottleClass) (key : string) (ts : list Z)
    (st : Counters) : option (list Outcome * Counters) :=
  match parse_rate (rate c) with
  | Some (limit, window) => Some (requests key limit window ts st)
  | None => None
  end.

End RateLimiter.

(** ** Sequences of operations *)

Inductive Op :=
| SendVerificationEmail (user : User)
| VerifyEmail (tok : string)
| SendPasswordResetEmail (mail : string)
| ResetPassword (tok new_password : string)
| CleanupExpiredTokens
| ResendVerification (user : User)
| Login (request : Request)
| Logout (request : Request).

(** The world an operation leaves, whether it returned or raised. *)
Definition run_op (env : Env) (drf : Framework) (op : Op) (w : World) : World :=
  match op with
  | SendVerificationEmail user => snd (send_verification_email env user w)
  | VerifyEmail tok => snd (verify_email env tok w)
  | SendPasswordResetEmail mail => snd (send_password_reset_email env mail w)
  | ResetPassword tok new_password => snd (reset_password env tok new_password w)
  | CleanupExpiredTokens => snd (cleanup_expired_tokens env w)
  | ResendVerification user => snd (ResendVerificationView_post env user w)
  | Login request => snd (LoginView_post env drf request w)
  | Logout request => snd (LogoutView_post request w)
  end.

Definition run_ops (env : Env) (drf : Framework) (ops : list Op) (w : World)
    : World :=
  fold_left (fun w op => run_op env drf op w) ops w.

(** The two consumers and the two issuers, by token model. The password is
    of use to [reset_password] only. *)
Definition consume (env : Env) (T : TokenModel) (tok new_password : string)
    : M bool :=
  match T with
  | PasswordResetToken => reset_password env tok new_password
  | EmailVerificationToken => verify_email env tok
  end.

Definition issue (env : Env) (T : TokenModel) (user : User) : M unit :=
  match T with
  | PasswordResetToken => send_password_reset_email env (email user)
  | EmailVerificationToken => send_verification_email env user
  end.

Definition TTL (T : TokenModel) : Z :=
  match T with
  | PasswordResetToken => PASSWORD_RESET_EXPIRY_HOURS
  | EmailVerificationToken => EMAIL_VERIFICATION_EXPIRY_HOURS
  end.

(** ** Predicates of the statements *)

(** [Token.is_valid()] at the clock reading [t]. *)
Definition valid_at (t : datetime) (r : Token) : bool :=
  is_null (used_at r) && (t <? expires_at r).

(** The filter of the two [get] calls. *)
Definition matches (tok : string) (t : datetime) (r : Token) : bool :=
  String.eqb (token r) tok && is_null (used_at r) && (t <? expires_at r).

(** Every row carrying the secret has [used_at] set. *)
Definition all_used (tok : string) (rows : list Token) : Prop :=
  forall r, In r rows -> token r = tok -> used_at r <> None.

(** The random source does not hand out [tok] from the [n]-th draw on. *)
Definition never_drawn_from (env : Env) (n : nat) (tok : string) : Prop :=
  forall m, (n <= m)%nat -> token_urlsafe env m <> tok.

(** The unused rows of a user. *)
Definition unused_of (uid : nat) (rows : list Token) : list Token :=
  filter (fun r => (user_id r =? uid)%nat && is_null (used_at r)) rows.

(** The rows of a user that are unused and unexpired at [t]. *)
Definition live_of (uid : nat) (t : datetime) (rows : list Token) : list Token :=
  filter (fun r => (user_id r =? uid)%nat && valid_at t r) rows.

Definition at_most_one_unused (w : World) : Prop :=
  forall T uid, (List.length (unused_of uid (objects T w)) <= 1)%nat.

(** What the columns' constraints give: primary keys handed out by [uuid4],
    all different; the [token] column unique. *)
Definition table_ok (w : World) (T : TokenModel) : Prop :=
  NoDup (map token_pk (objects T w)) /\
  NoDup (map token (objects T w)) /\
  (forall r, In r (objects T w) -> (token_pk r < uuid_draws w)%nat).

Definition store_ok (w : World) : Prop := forall T, table_ok w T.

(** The world after one reading of the clock and nothing else. *)
Definition tick (w : World) : World :=
  mkWorld (users w) (password_reset_tokens w) (email_verification_tokens w)
          (outbox w) (sessions w) (S (clock_reads w)) (random_draws w)
          (uuid_draws w).

(** The part the two issuers share, once the user is known. *)
Definition issue_for (env : Env) (T : TokenModel) (user : User)
    (subj path : string) : M unit :=
  t <- now env ;;
  objects_filter_update T
    (fun r => (user_id r =? user_pk user)%nat && is_null (used_at r))
    (set_used_at t) ;;
  tok <- generate_token env ;;
  t' <- now env ;;
  let expires := t' + timedelta_hours (TTL T) in
  _ <- objects_create env T user tok expires ;;
  send_mail (mkMail subj [email user] (FRONTEND_URL env ++ path ++ tok)%string
                    (TTL T)).

(** The part the two consumers share. *)
Definition consume_with (env : Env) (T : TokenModel) (tok : string)
    (write : User -> User) : M bool :=
  t <- now env ;;
  us <- (fun w => (Ok (users w), w)) ;;
  rows <- (fun w => (Ok (objects T w), w)) ;;
  found <- queryset_get (select_related us (filter (matches tok t) rows)) ;;
  match found with
  | Some (r, user) =>
      t' <- now env ;;
      token_save T (set_used_at t' r) ;;
      user_save_update_fields env user write ;;
      ret true
  | None => ret false
  end.

(** The rows after the bulk update of an issuer at the clock reading [t]. *)
Definition invalidated (uid : nat) (t : datetime) (rows : list Token)
    : list Token :=
  map (fun r => if (user_id r =? uid)%nat && is_null (used_at r)
                then set_used_at t r else r) rows.

(** The world an issuer has reached when it asks the store to insert. *)
Definition before_insert (env : Env) (T : TokenModel) (user : User) (w : World)
    : World :=
  set_objects T
    (invalidated (user_pk user) (clock env (clock_reads w)) (objects T w))
    (mkWorld (users w) (password_reset_tokens w) (email_verification_tokens w)
             (outbox w) (sessions w) (S (S (S (clock_reads w))))
             (S (random_draws w)) (S (uuid_draws w))).

(** The row an issuer inserts. *)
Definition new_row (env : Env) (T : TokenModel) (user : User) (w : World)
    : Token :=
  mkToken (uuid_draws w) (user_pk user) (token_urlsafe env (random_draws w))
          (clock env (S (S (clock_reads w))))
          (clock env (S (clock_reads w)) + timedelta_hours (TTL T)) None.

(** Whether the store refuses the insert. *)
Definition insert_refused (env : Env) (T : TokenModel) (user : User) (w : World)
    : bool :=
  existsb (fun r => String.eqb (token r) (token_urlsafe env (random_draws w)))
          (invalidated (user_pk user) (clock env (clock_reads w)) (objects T w))
  || negb (existsb (fun u => (user_pk u =? user_pk user)%nat) (users w)).

(** What one operation can do to one token table. *)
Inductive table_step (env : Env) (T : TokenModel) (w w' : World) : Prop :=
| step_same :
    objects T w' = objects T w -> table_step env T w w'
| step_used r t :
    In r (objects T w) ->
    objects T w' =
      map (fun r' => if (token_pk r' =? token_pk r)%nat
                     then set_used_at t r else r') (objects T w) ->
    table_step env T w w'
| step_deleted t :
    objects T w' = filter (fun r => negb (expires_at r <? t)) (objects T w) ->
    table_step env T w w'
| step_invalidated uid t :
    objects T w' = invalidated uid t (objects T w) ->
    table_step env T w w'
| step_issued user :
    insert_refused env T user w = false ->
    objects T w' =
      (invalidated (user_pk user) (clock env (clock_reads w)) (objects T w)
       ++ [new_row env T user w])%list ->
    (uuid_draws w < uuid_draws w')%nat ->
    (random_draws w < random_draws w')%nat ->
    table_step env T w w'.

(** [User.objects.get(email=mail.lower(), is_active=True)] finds [user]. *)
Definition resolves (w : World) (mail : string) (user : User) : Prop :=
  filter (fun u => String.eqb (email u) (lower mail) && is_active u) (users w)
  = [user].

(** Nothing resolves. *)
Definition unresolved (w : World) (mail : string) : Prop :=
  filter (fun u => String.eqb (email u) (lower mail) && is_active u) (users w)
  = [].

(** ** A concrete run, for the examples *)

Module Example.

(** A clock that advances by one microsecond from one reading to the next. *)
Definition the_clock (n : nat) : datetime := 1000 + Z.of_nat n.

Fixpoint xs (n : nat) : string :=
  match n with
  | O => EmptyString
  | S n' => String "x" (xs n')
  end.

(** A random source whose draws all differ. *)
Definition the_random (n : nat) : string := String "k" (xs n).

Definition env : Env :=
  mkEnv the_clock the_random (fun raw => ("hash:" ++ raw)%string) "https://app".

Fixpoint has_at (s : string) : bool :=
  match s with
  | EmptyString => false
  | String c s' => Ascii.eqb c "@" || has_at s'
  end.

Definition drf : Framework :=
  mkFramework
    (fun v => if has_at v then Some v else None)
    (fun v => if String.eqb v "" then None else Some v)
    (fun v => (8 <=? String.length v)%nat)
    (fun raw h => String.eqb h ("hash:" ++ raw))
    (fun claims => match dict_get "token_type" claims with
                   | Some (JStr k) => (k ++ ".jwt")%string
                   | _ => "jwt"
                   end)
    (timedelta_hours 168).

(** An active user whose email is not verified. *)
Definition alice : User :=
  mkUser 1 "a@b.com" "hash:Secret123!" "Alice" "" true false false 0 None.

(** A store with the user and no token. *)
Definition fresh : World := mkWorld [alice] [] [] [] [] 0 0 0.

(** A store in which the user holds one unused password reset token, issued
    with the secret ["s0"]. *)
Definition holding : World :=
  mkWorld [alice]
    [mkToken 0 1 "s0" 900 (900 + timedelta_hours 24) None] [] [] [] 0 0 1.

End Example.

(** ** The rest of the module: profile names and the password change *)







Module MoreExamples.

(** The verification token of the user in [verifying]. *)
Definition pending : Token :=
  mkToken 0 1 "v0" 900 (900 + timedelta_hours 72) None.

(** A store in which the user holds one unused email verification token. *)
Definition verifying : World :=
  mkWorld [Example.alice] [] [pending] [] [] 0 0 1.

(** A reset token that was used at 950. *)
Definition spent_row : Token :=
  mkToken 0 1 "s0" 900 (900 + timedelta_hours 24) (Some 950).

(** A store in which the user's reset token has been used. *)
Definition spent : World :=
  mkWorld [Example.alice] [spent_row] [] [] [] 0 0 1.

End MoreExamples.


(** ** Permission classes ([permissions.py]) *)

Module Permissions.

(** An object a permission is asked about, as far as the classes probe it:
    for each of the attributes [created_by], [user] and [owner], [None] when
    the object has no such attribute ([hasattr] is false), and otherwise the
    primary key of the user it holds, if it holds one. *)
Record Obj := mkObj {
  created_by : option (option nat);
  obj_user : option (option nat);
  owner : option (option nat)
}.

(** [request.user]: [None] is the anonymous user, which is a truthy object
    with [is_authenticated] and [is_staff] false. *)
Definition is_authenticated (ru : option User) : bool :=
  match ru with Some _ => true | None => false end.

(** [attribute == request.user]: model instances are equal when their
    primary keys are; nothing an attribute holds equals the anonymous
    user. *)
Definition same_user (held : option nat) (ru : option User) : bool :=
  match held, ru with
  | Some pk, Some u => (pk =? user_pk u)%nat
  | _, _ => false
  end.

(** [request.method in SAFE_METHODS]. *)
Definition is_safe (method : string) : bool :=
  String.eqb method "GET" || String.eqb method "HEAD"
  || String.eqb method "OPTIONS".

(** [IsEmailVerified.has_permission]. *)
Definition IsEmailVerified (ru : option User) : bool :=
  match ru with
  | Some u => is_authenticated ru && email_verified u
  | None => false
  end.

(** [IsOwner.has_object_permission]. *)
Definition IsOwner (ru : option User) (obj : Obj) : bool :=
  match created_by obj with
  | Some held => same_user held ru
  | None =>
      match obj_user obj with
      | Some held => same_user held ru
      | None =>
          match owner obj with
          | Some held => same_user held ru
          | None => false
          end
      end
  end.

(** [IsOwnerOrReadOnly.has_object_permission]. *)
Definition IsOwnerOrReadOnly (method : string) (ru : option User) (obj : Obj)
    : bool :=
  if is_safe method then true
  else
    match created_by obj with
    | Some held => same_user held ru
    | None =>
        match obj_user obj with
        | Some held => same_user held ru
        | None => false
        end
    end.

(** [IsAdminOrReadOnly.has_permission]. *)
Definition IsAdminOrReadOnly (method : string) (ru : option User) : bool :=
  if is_safe method then is_authenticated ru
  else match ru with Some u => is_staff u | None => false end.

(** [IsNotAuthenticated.has_permission]. *)
Definition IsNotAuthenticated (ru : option User) : bool :=
  negb (is_authenticated ru).

(** [CanDeleteObject.has_object_permission]. *)
Definition CanDeleteObject (method : string) (ru : option User) (obj : Obj)
    : bool :=
  if negb (String.eqb method "DELETE") then true
  else if match ru with Some u => is_staff u | None => false end then true
  else
    match created_by obj with
    | Some held => same_user held ru
    | None => false
    end.

(** [HasRole.has_permission]. [required_role] is the attribute of the view,
    [None] when the view has none; [roles] and [role] are the attributes of
    that name of [request.user], [None] when the user has no such attribute
    (the [User] model of [models.py] declares neither); [roles] holds the
    names of the related rows. *)
Definition HasRole (required_role : option string) (ru : option User)
    (roles : option (list string)) (role : option string) : bool :=
  match required_role with
  | None => true
  | Some required =>
      if negb (truthy required_role) then true
      else if negb (is_authenticated ru) then false
      else
        match roles with
        | Some names => existsb (fun n => String.eqb n required) names
        | None =>
            match role with
            | Some held => String.eqb held required
            | None => false
            end
        end
  end.

End Permissions.

(** ** The service methods, step by step *)

Section ServiceLemmas.

Variable env : Env.

Lemma send_verification_email_issue_for user :
  send_verification_email env user =
  issue_for env EmailVerificationToken user "Verify your email address"
            "/verify-email?token=".
Proof. reflexivity. Qed.

Lemma send_password_reset_email_issue_for mail w :
  send_password_reset_email env mail w =
  match filter (fun u => String.eqb (email u) (lower mail) && is_active u)
               (users w) with
  | [] => (Ok tt, w)
  | [user] => issue_for env PasswordResetToken user "Reset your password"
                        "/reset-password?token=" w
  | _ => (Raise MultipleObjectsReturned, w)
  end.
Proof.
  unfold send_password_reset_email, bind at 1. cbn.
  unfold bind at 1.
  destruct (filter _ (users w)) as [|u [|u' us]]; reflexivity.
Qed.

Lemma consume_consume_with T tok new_password :
  consume env T tok new_password =
  consume_with env T tok
    (match T with
     | PasswordResetToken => set_password (make_password env new_password)
     | EmailVerificationToken => set_email_verified true
     end).
Proof. destruct T; reflexivity. Qed.

End ServiceLemmas.

Section RunLemmas.

Variable env : Env.

Lemma objects_set_objects T rows w : objects T (set_objects T rows w) = rows.
Proof. destruct T; reflexivity. Qed.

Lemma objects_set_objects_other T T' rows w :
  T <> T' -> objects T' (set_objects T rows w) = objects T' w.
Proof. destruct T, T'; intros H; try reflexivity; congruence. Qed.

Lemma consume_with_run T tok write w :
  consume_with env T tok write w =
  match select_related (users w)
          (filter (matches tok (clock env (clock_reads w))) (objects T w)) with
  | [] => (Ok false, tick w)
  | [(r, user)] =>
      (Ok true,
       set_users
         (map (fun u => if (user_pk u =? user_pk user)%nat
                        then set_updated_at (clock env (S (S (clock_reads w))))
                                            (write u)
                        else u) (users w))
         (tick (set_objects T
                  (map (fun r' => if (token_pk r' =? token_pk r)%nat
                                  then set_used_at (clock env (S (clock_reads w))) r
                                  else r') (objects T w))
                  (tick (tick w)))))
  | _ => (Raise MultipleObjectsReturned, tick w)
  end.
Proof.
  unfold consume_with, bind, now. cbn.
  replace (objects T (mkWorld (users w) (password_reset_tokens w)
             (email_verification_tokens w) (outbox w) (sessions w)
             (S (clock_reads w)) (random_draws w) (uuid_draws w)))
    with (objects T w) by (destruct T; reflexivity).
  destruct (select_related _ _) as [|[r u] [|x l]]; cbn; try reflexivity.
  destruct T; reflexivity.
Qed.

Lemma issue_for_run T user subj path w :
  issue_for env T user subj path w =
  let w1 := before_insert env T user w in
  if insert_refused env T user w
  then (Raise IntegrityError, w1)
  else
    let w2 := set_objects T (objects T w1 ++ [new_row env T user w]) w1 in
    (Ok tt,
     mkWorld (users w2) (password_reset_tokens w2)
       (email_verification_tokens w2)
       (outbox w2 ++
        [mkMail subj [email user]
           (FRONTEND_URL env ++ path ++ token_urlsafe env (random_draws w))%string
           (TTL T)])
       (sessions w2) (clock_reads w2) (random_draws w2) (uuid_draws w2)).
Proof.
  unfold issue_for, bind, now, generate_token, secrets_token_urlsafe,
    objects_create, bind, uuid4, objects_filter_update, send_mail,
    insert_refused, before_insert, new_row, invalidated.
  destruct T; cbn;
    match goal with |- context [if ?c then _ else _] => destruct c end;
    reflexivity.
Qed.

Lemma in_select_related us rows r u :
  In (r, u) (select_related us rows) ->
  In r rows /\ related_user us r = Some u.
Proof.
  unfold select_related. rewrite in_flat_map.
  intros [r' [Hin H]]. destruct (related_user us r') as [u'|] eqn:E.
  - destruct H as [H|[]]. inversion H; subst. auto.
  - destruct H.
Qed.

Lemma TokenModel_eq_dec (T T' : TokenModel) : {T = T'} + {T <> T'}.
Proof. decide equality. Qed.

Lemma consume_with_step T T' tok write w :
  table_step env T' w (snd (consume_with env T tok write w)).
Proof.
  rewrite consume_with_run.
  destruct (select_related _ _) as [|[r u] [|x l]] eqn:E; cbn [snd].
  - apply step_same. destruct T'; reflexivity.
  - destruct (TokenModel_eq_dec T T') as [<-|Hne].
    + apply step_used with (r := r) (t := clock env (S (clock_reads w))).
      * assert (H : In (r, u) (select_related (users w)
                  (filter (matches tok (clock env (clock_reads w)))
                          (objects T w)))) by (rewrite E; left; reflexivity).
        apply in_select_related in H. destruct H as [H _].
        apply filter_In in H. tauto.
      * destruct T; reflexivity.
    + apply step_same. destruct T, T'; try reflexivity; congruence.
  - apply step_same. destruct T'; reflexivity.
Qed.

Lemma issue_for_step T T' user subj path w :
  table_step env T' w (snd (issue_for env T user subj path w)).
Proof.
  rewrite issue_for_run. cbv zeta.
  destruct (TokenModel_eq_dec T T') as [<-|Hne].
  - destruct (insert_refused env T user w) eqn:E; cbn [snd].
    + apply step_invalidated with (uid := user_pk user)
                                  (t := clock env (clock_reads w)).
      unfold before_insert. destruct T; reflexivity.
    + apply step_issued with (user := user); trivial.
      * unfold before_insert. destruct T; reflexivity.
      * unfold before_insert. destruct T; cbn; lia.
      * unfold before_insert. destruct T; cbn; lia.
  - apply step_same.
    destruct (insert_refused env T user w); unfold before_insert;
      destruct T, T'; try reflexivity; congruence.
Qed.

Lemma cleanup_expired_tokens_run w :
  cleanup_expired_tokens env w =
  (Ok tt,
   mkWorld (users w)
     (filter (fun r => negb (expires_at r <? clock env (clock_reads w)))
             (password_reset_tokens w))
     (filter (fun r => negb (expires_at r <? clock env (clock_reads w)))
             (email_verification_tokens w))
     (outbox w) (sessions w) (S (clock_reads w)) (random_draws w)
     (uuid_draws w)).
Proof. reflexivity. Qed.

End RunLemmas.

Section OpLemmas.

Variable env : Env.
Variable drf : Framework.

Lemma LoginView_post_tokens request w T :
  objects T (snd (LoginView_post env drf request w)) = objects T w /\
  random_draws (snd (LoginView_post env drf request w)) = random_draws w /\
  uuid_draws (snd (LoginView_post env drf request w)) = uuid_draws w.
Proof.
  unfold LoginView_post, TokenObtainPairView_post,
    CustomTokenObtainPairSerializer_validate,
    TokenObtainPairSerializer_validate, bind, raise, ret, now.
  destruct (dict_get "email" (data request)) as [mail|];
    [destruct (dict_get "password" (data request)) as [pw|]|];
    cbn; try (destruct T; auto; fail).
  destruct (find _ (users w)) as [u|]; cbn; try (destruct T; auto; fail).
  destruct (negb (is_active u)); cbn; try (destruct T; auto; fail).
  destruct (negb (check_password drf pw (password u))); cbn;
    destruct T; auto.
Qed.

Lemma LogoutView_post_tokens request w T :
  objects T (snd (LogoutView_post request w)) = objects T w /\
  random_draws (snd (LogoutView_post request w)) = random_draws w /\
  uuid_draws (snd (LogoutView_post request w)) = uuid_draws w.
Proof.
  unfold LogoutView_post, try_except, RefreshToken_blacklist, bind, ret.
  destruct (dict_get "refresh" (data request)) as [tok|];
    cbn; try (destruct T; auto; fail).
  destruct (negb (tok =? "")%string); cbn; try (destruct T; auto; fail).
  destruct (existsb _ (sessions w)); cbn; destruct T; auto.
Qed.

Lemma run_op_step op w T : table_step env T w (run_op env drf op w).
Proof.
  destruct op; cbn [run_op].
  - rewrite send_verification_email_issue_for. apply issue_for_step.
  - change (verify_email env tok)
      with (consume env EmailVerificationToken tok "").
    rewrite consume_consume_with. apply consume_with_step.
  - rewrite send_password_reset_email_issue_for.
    destruct (filter _ (users w)) as [|u [|u' us]].
    + apply step_same. reflexivity.
    + apply issue_for_step.
    + apply step_same. reflexivity.
  - change (reset_password env tok new_password)
      with (consume env PasswordResetToken tok new_password).
    rewrite consume_consume_with. apply consume_with_step.
  - rewrite cleanup_expired_tokens_run. cbn [snd].
    apply step_deleted with (t := clock env (clock_reads w)).
    destruct T; reflexivity.
  - unfold ResendVerificationView_post.
    destruct (email_verified user).
    + apply step_same. reflexivity.
    + rewrite send_verification_email_issue_for.
      unfold bind at 1.
      pose proof (issue_for_step env EmailVerificationToken T user
                    "Verify your email address" "/verify-email?token=" w) as H.
      destruct (issue_for env EmailVerificationToken user _ _ w) as [[[]|e] w'];
        exact H.
  - apply step_same. apply LoginView_post_tokens.
  - apply step_same. apply LogoutView_post_tokens.
Qed.

Lemma run_op_draws op w :
  (random_draws w <= random_draws (run_op env drf op w))%nat /\
  (uuid_draws w <= uuid_draws (run_op env drf op w))%nat.
Proof.
  assert (Hi : forall T user subj path w,
             (random_draws w <=
              random_draws (snd (issue_for env T user subj path w)))%nat /\
             (uuid_draws w <=
              uuid_draws (snd (issue_for env T user subj path w)))%nat).
  { intros T user subj path w0. rewrite issue_for_run. cbv zeta.
    destruct (insert_refused env T user w0); unfold before_insert;
      destruct T; cbn; lia. }
  assert (Hc : forall T tok write w,
             (random_draws w <=
              random_draws (snd (consume_with env T tok write w)))%nat /\
             (uuid_draws w <=
              uuid_draws (snd (consume_with env T tok write w)))%nat).
  { intros T tok write w0. rewrite consume_with_run.
    destruct (select_related _ _) as [|[r u] [|x l]]; cbn [snd];
      destruct T; cbn; lia. }
  destruct op; cbn [run_op].
  - rewrite send_verification_email_issue_for. apply Hi.
  - change (verify_email env tok)
      with (consume env EmailVerificationToken tok "").
    rewrite consume_consume_with. apply Hc.
  - rewrite send_password_reset_email_issue_for.
    destruct (filter _ (users w)) as [|u [|u' us]]; cbn [snd]; auto.
  - change (reset_password env tok new_password)
      with (consume env PasswordResetToken tok new_password).
    rewrite consume_consume_with. apply Hc.
  - cbn. lia.
  - unfold ResendVerificationView_post.
    destruct (email_verified user); cbn [snd ret]; auto.
    rewrite send_verification_email_issue_for. unfold bind at 1 2.
    pose proof (Hi EmailVerificationToken user
                  "Verify your email address" "/verify-email?token=" w) as H.
    destruct (issue_for env EmailVerificationToken user _ _ w) as [[[]|e] w'];
      exact H.
  - destruct (LoginView_post_tokens request w PasswordResetToken)
      as (_ & H & H').
    rewrite H, H'. lia.
  - destruct (LogoutView_post_tokens request w PasswordResetToken)
      as (_ & H & H').
    rewrite H, H'. lia.
Qed.

End OpLemmas.

(** ** Invariants of the token tables *)

Section ListFacts.

Context {A B : Type}.

Lemma filter_map_length_le (p : A -> bool) (f : A -> A) (l : list A) :
  (forall x, In x l -> p (f x) = true -> p x = true) ->
  (List.length (filter p (map f l)) <= List.length (filter p l))%nat.
Proof.
  induction l as [|a l IH]; intros H; cbn; [lia|].
  assert (IH' := IH (fun x Hx => H x (or_intror Hx))).
  destruct (p (f a)) eqn:E.
  - rewrite (H a (or_introl eq_refl) E). cbn. lia.
  - destruct (p a); cbn; lia.
Qed.

Lemma filter_filter_length_le (p q : A -> bool) (l : list A) :
  (List.length (filter p (filter q l)) <= List.length (filter p l))%nat.
Proof.
  induction l as [|a l IH]; cbn; [lia|].
  destruct (q a), (p a) eqn:E; cbn; rewrite ?E; cbn; lia.
Qed.

Lemma filter_none (p : A -> bool) (l : list A) :
  (forall x, In x l -> p x = false) -> filter p l = [].
Proof.
  induction l as [|a l IH]; intros H; cbn; [reflexivity|].
  rewrite (H a (or_introl eq_refl)). apply IH. intros x Hx. apply H. now right.
Qed.

Lemma NoDup_map_inj (g : A -> B) (l : list A) (a b : A) :
  NoDup (map g l) -> In a l -> In b l -> g a = g b -> a = b.
Proof.
  induction l as [|x l IH]; cbn; intros Hnd Ha Hb Hg; [contradiction|].
  inversion Hnd as [|y l' Hnin Hnd']; subst.
  destruct Ha as [<-|Ha], Hb as [<-|Hb]; auto.
  - exfalso. apply Hnin. rewrite Hg. now apply in_map.
  - exfalso. apply Hnin. rewrite <- Hg. now apply in_map.
Qed.

Lemma NoDup_map_filter (g : A -> B) (p : A -> bool) (l : list A) :
  NoDup (map g l) -> NoDup (map g (filter p l)).
Proof.
  induction l as [|x l IH]; cbn; intros Hnd; [constructor|].
  inversion Hnd as [|y l' Hnin Hnd']; subst.
  destruct (p x); cbn; auto.
  constructor; auto.
  intros Hin. apply Hnin. apply in_map_iff in Hin.
  destruct Hin as [z [Hz Hin]]. apply filter_In in Hin.
  apply in_map_iff. exists z. tauto.
Qed.

Lemma map_map_same (g : A -> B) (f : A -> A) (l : list A) :
  (forall x, In x l -> g (f x) = g x) -> map g (map f l) = map g l.
Proof.
  intros H. rewrite map_map. apply map_ext_in. exact H.
Qed.

End ListFacts.

Section Invariants.

Variable env : Env.

Lemma never_drawn_from_le n m tok :
  (n <= m)%nat -> never_drawn_from env n tok -> never_drawn_from env m tok.
Proof. unfold never_drawn_from. intros Hle H k Hk. apply H. lia. Qed.

Lemma in_invalidated uid t rows x :
  In x (invalidated uid t rows) ->
  exists r, In r rows /\ (x = r \/ x = set_used_at t r).
Proof.
  unfold invalidated. rewrite in_map_iff. intros [r [Hx Hr]].
  exists r. split; trivial.
  destruct (_ && _); subst; auto.
Qed.

Lemma all_used_step T w w' tok :
  table_step env T w w' ->
  all_used tok (objects T w) ->
  never_drawn_from env (random_draws w) tok ->
  all_used tok (objects T w').
Proof.
  intros Hstep Hu Hn.
  destruct Hstep as [E|r t Hr E|t E|uid t E|user Hins E _ _];
    rewrite E; clear E; intros x Hx Htok.
  - now apply Hu.
  - apply in_map_iff in Hx. destruct Hx as [r' [Hx Hr']].
    destruct (token_pk r' =? token_pk r)%nat; subst x.
    + cbn. discriminate.
    + now apply Hu.
  - apply filter_In in Hx. apply Hu; tauto.
  - apply in_invalidated in Hx. destruct Hx as [r [Hr [->| ->]]].
    + now apply Hu.
    + cbn. discriminate.
  - apply in_app_or in Hx. destruct Hx as [Hx|[<-|[]]].
    + apply in_invalidated in Hx. destruct Hx as [r [Hr [->| ->]]].
      * now apply Hu.
      * cbn. discriminate.
    + exfalso. cbn in Htok. apply (Hn (random_draws w)); auto.
Qed.

Lemma unused_of_invalidated_le uid uid' t rows :
  (List.length (unused_of uid (invalidated uid' t rows))
   <= List.length (unused_of uid rows))%nat.
Proof.
  unfold unused_of, invalidated. apply filter_map_length_le.
  intros x _.
  destruct ((user_id x =? uid')%nat && is_null (used_at x)); trivial.
  cbn. rewrite andb_false_r. discriminate.
Qed.

Lemma unused_of_invalidated_same uid t rows :
  unused_of uid (invalidated uid t rows) = [].
Proof.
  unfold unused_of. apply filter_none. intros x Hx.
  unfold invalidated in Hx. apply in_map_iff in Hx.
  destruct Hx as [r [Hx _]].
  destruct ((user_id r =? uid)%nat && is_null (used_at r)) eqn:E; subst x.
  - cbn. apply andb_false_r.
  - exact E.
Qed.

Lemma at_most_one_unused_step T w w' uid :
  table_step env T w w' ->
  (List.length (unused_of uid (objects T w)) <= 1)%nat ->
  (List.length (unused_of uid (objects T w')) <= 1)%nat.
Proof.
  intros Hstep H.
  destruct Hstep as [E|r t Hr E|t E|uid' t E|user Hins E _ _];
    rewrite E; clear E.
  - exact H.
  - eapply Nat.le_trans; [|exact H].
    unfold unused_of. apply filter_map_length_le.
    intros x _. destruct (token_pk x =? token_pk r)%nat; trivial.
    cbn. rewrite andb_false_r. discriminate.
  - eapply Nat.le_trans; [|exact H]. apply filter_filter_length_le.
  - eapply Nat.le_trans; [|exact H]. apply unused_of_invalidated_le.
  - unfold unused_of. rewrite filter_app, length_app. cbn [filter].
    fold (unused_of uid (invalidated (user_pk user)
                           (clock env (clock_reads w)) (objects T w))).
    cbn [new_row user_id used_at is_null].
    destruct (user_pk user =? uid)%nat eqn:Eu; cbn [andb List.length].
    + apply Nat.eqb_eq in Eu. subst uid.
      rewrite unused_of_invalidated_same. cbn. lia.
    + pose proof (unused_of_invalidated_le uid (user_pk user)
                    (clock env (clock_reads w)) (objects T w)). lia.
Qed.

Lemma table_ok_step T w w' :
  table_step env T w w' ->
  (uuid_draws w <= uuid_draws w')%nat ->
  table_ok w T -> table_ok w' T.
Proof.
  intros Hstep Hle (Hpk & Htok & Hlt).
  assert (Hinv : forall uid t,
             map token_pk (invalidated uid t (objects T w))
             = map token_pk (objects T w) /\
             map token (invalidated uid t (objects T w))
             = map token (objects T w)).
  { intros uid t. unfold invalidated.
    split; apply map_map_same; intros x _; destruct (_ && _); reflexivity. }
  destruct Hstep as [E|r t Hr E|t E|uid t E|user Hins E Hu _];
    unfold table_ok; rewrite E; clear E.
  - repeat split; trivial. intros r Hr. specialize (Hlt r Hr). lia.
  - assert (Hsame : forall x, In x (objects T w) ->
               (if (token_pk x =? token_pk r)%nat then set_used_at t r else x)
               = (if (token_pk x =? token_pk r)%nat then set_used_at t x else x)).
    { intros x Hx. destruct (token_pk x =? token_pk r)%nat eqn:Ex; trivial.
      apply Nat.eqb_eq in Ex.
      now rewrite (NoDup_map_inj token_pk _ x r Hpk Hx Hr Ex). }
    rewrite (map_ext_in _ _ _ Hsame).
    repeat split.
    + rewrite map_map_same; trivial.
      intros x _. destruct (_ =? _)%nat; reflexivity.
    + rewrite map_map_same; trivial.
      intros x _. destruct (_ =? _)%nat; reflexivity.
    + intros x Hx. apply in_map_iff in Hx. destruct Hx as [y [<- Hy]].
      specialize (Hlt y Hy). destruct (_ =? _)%nat; cbn; lia.
  - repeat split.
    + now apply NoDup_map_filter.
    + now apply NoDup_map_filter.
    + intros r Hr. apply filter_In in Hr. destruct Hr as [Hr _].
      specialize (Hlt r Hr). lia.
  - destruct (Hinv uid t) as [E1 E2]. rewrite E1, E2.
    repeat split; trivial.
    intros x Hx. apply in_invalidated in Hx.
    destruct Hx as [r [Hr [->| ->]]]; specialize (Hlt r Hr); cbn; lia.
  - destruct (Hinv (user_pk user) (clock env (clock_reads w))) as [E1 E2].
    rewrite !map_app, E1, E2. cbn [map new_row token_pk token].
    repeat split.
    + apply NoDup_app; repeat split; trivial.
      * constructor; [intros []|constructor].
      * intros a Ha [<-|[]]. apply in_map_iff in Ha.
        destruct Ha as [r [Er Hr]]. specialize (Hlt r Hr). lia.
    + apply NoDup_app; repeat split; trivial.
      * constructor; [intros []|constructor].
      * intros a Ha [<-|[]].
        unfold insert_refused in Hins. apply orb_false_iff in Hins.
        destruct Hins as [Hins _].
        rewrite <- E2 in Ha. apply in_map_iff in Ha.
        destruct Ha as [r [Er Hr]].
        assert (Hex : existsb
                  (fun r => (token r =? token_urlsafe env (random_draws w))%string)
                  (invalidated (user_pk user) (clock env (clock_reads w))
                               (objects T w)) = true).
        { apply existsb_exists. exists r. split; trivial.
          now apply String.eqb_eq. }
        congruence.
    + intros x Hx. apply in_app_or in Hx. destruct Hx as [Hx|[<-|[]]].
      * apply in_invalidated in Hx.
        destruct Hx as [r [Hr [->| ->]]]; specialize (Hlt r Hr); cbn; lia.
      * cbn. lia.
Qed.

End Invariants.

Section Sequences.

Variable env : Env.
Variable drf : Framework.

Lemma run_ops_app ops ops' w :
  run_ops env drf (ops ++ ops') w = run_ops env drf ops' (run_ops env drf ops w).
Proof. unfold run_ops. apply fold_left_app. Qed.

Lemma run_ops_all_used ops T tok w :
  all_used tok (objects T w) ->
  never_drawn_from env (random_draws w) tok ->
  all_used tok (objects T (run_ops env drf ops w)) /\
  never_drawn_from env (random_draws (run_ops env drf ops w)) tok.
Proof.
  revert w. induction ops as [|op ops IH]; intros w Hu Hn; cbn; [auto|].
  apply IH.
  - eapply all_used_step; eauto. apply run_op_step.
  - eapply never_drawn_from_le; [|exact Hn]. apply run_op_draws.
Qed.

Lemma run_ops_at_most_one_unused ops w :
  at_most_one_unused w -> at_most_one_unused (run_ops env drf ops w).
Proof.
  revert w. induction ops as [|op ops IH]; intros w H; cbn; [auto|].
  apply IH. intros T uid.
  eapply at_most_one_unused_step; [apply run_op_step|apply H].
Qed.

Lemma run_ops_store_ok ops w :
  store_ok w -> store_ok (run_ops env drf ops w).
Proof.
  revert w. induction ops as [|op ops IH]; intros w H; cbn; [auto|].
  apply IH. intros T.
  eapply table_ok_step; [apply run_op_step|apply run_op_draws|apply H].
Qed.

Lemma matches_none_if_all_used tok t rows :
  all_used tok rows -> filter (matches tok t) rows = [].
Proof.
  intros Hu. apply filter_none. intros r Hr. unfold matches.
  destruct (String.eqb_spec (token r) tok) as [E|]; trivial.
  specialize (Hu r Hr E). destruct (used_at r); [reflexivity|congruence].
Qed.

Lemma consume_none T tok new_password w :
  filter (matches tok (clock env (clock_reads w))) (objects T w) = [] ->
  consume env T tok new_password w = (Ok false, tick w).
Proof.
  intros H. rewrite consume_consume_with, consume_with_run, H. reflexivity.
Qed.

Lemma consume_success_inv T tok new_password w w1 :
  consume env T tok new_password w = (Ok true, w1) ->
  exists r u,
    select_related (users w)
      (filter (matches tok (clock env (clock_reads w))) (objects T w))
    = [(r, u)] /\
    In r (objects T w) /\ token r = tok /\
    objects T w1 =
      map (fun r' => if (token_pk r' =? token_pk r)%nat
                     then set_used_at (clock env (S (clock_reads w))) r
                     else r') (objects T w) /\
    random_draws w1 = random_draws w.
Proof.
  rewrite consume_consume_with, consume_with_run.
  destruct (select_related _ _) as [|[r u] [|x l]] eqn:E; try discriminate.
  intros H. inversion H; subst w1; clear H.
  exists r, u. split; [reflexivity|].
  assert (Hin : In (r, u) (select_related (users w)
             (filter (matches tok (clock env (clock_reads w))) (objects T w))))
    by (rewrite E; now left).
  apply in_select_related in Hin. destruct Hin as [Hin _].
  apply filter_In in Hin. destruct Hin as [Hin Hm].
  unfold matches in Hm. apply andb_true_iff in Hm. destruct Hm as [Hm _].
  apply andb_true_iff in Hm. destruct Hm as [Hm _].
  apply String.eqb_eq in Hm.
  repeat split; trivial; destruct T; reflexivity.
Qed.

Lemma consume_success_all_used T tok new_password w w1 :
  NoDup (map token (objects T w)) ->
  consume env T tok new_password w = (Ok true, w1) ->
  all_used tok (objects T w1) /\ random_draws w1 = random_draws w.
Proof.
  intros Hnd H. apply consume_success_inv in H.
  destruct H as (r & u & _ & Hin & Htok & E & Hd). split; trivial.
  rewrite E. intros x Hx Hxt. apply in_map_iff in Hx.
  destruct Hx as [y [Hx Hy]].
  destruct (token_pk y =? token_pk r)%nat eqn:Epk; subst x.
  - cbn. discriminate.
  - assert (y = r).
    { apply (NoDup_map_inj token (objects T w)); trivial. congruence. }
    subst y. rewrite Nat.eqb_refl in Epk. discriminate.
Qed.

End Sequences.

(** ** Single use *)

Section SingleUse.

Variable env : Env.
Variable drf : Framework.

Lemma terminal_forever T tok w ops new_password :
  all_used tok (objects T w) ->
  never_drawn_from env (random_draws w) tok ->
  let w' := run_ops env drf ops w in
  consume env T tok new_password w' = (Ok false, tick w') /\
  (forall r t, In r (objects T w') -> token r = tok -> valid_at t r = false).
Proof.
  intros Hu Hn w'.
  destruct (run_ops_all_used env drf ops T tok w Hu Hn) as [Hu' _]. fold w' in Hu'.
  split.
  - apply consume_none. now apply matches_none_if_all_used.
  - intros r t Hr Htok. specialize (Hu' r Hr Htok). unfold valid_at.
    destruct (used_at r); [reflexivity|congruence].
Qed.

(** C1. A successful [reset_password] or [verify_email] with a secret is the
    last one: whatever operations follow, every later call with the same
    secret returns [False], and no row carrying the secret is valid at any
    time again. The same holds from any store in which the rows carrying the
    secret have [used_at] set, be it by a consume or by the invalidation of
    an issuer. The random source is taken not to draw the secret again. *)
Theorem consume_succeeds_at_most_once
    (T : TokenModel) (tok : string) (w : World) :
  NoDup (map token (objects T w)) ->
  never_drawn_from env (random_draws w) tok ->
  (forall new_password w1,
      consume env T tok new_password w = (Ok true, w1) ->
      forall ops new_password',
        let w2 := run_ops env drf ops w1 in
        consume env T tok new_password' w2 = (Ok false, tick w2) /\
        (forall r t, In r (objects T w2) -> token r = tok ->
                     valid_at t r = false)) /\
  (all_used tok (objects T w) ->
   forall ops new_password',
     let w2 := run_ops env drf ops w in
     consume env T tok new_password' w2 = (Ok false, tick w2) /\
     (forall r t, In r (objects T w2) -> token r = tok ->
                  valid_at t r = false)).
Proof.
  intros Hnd Hn. split.
  - intros new_password w1 Hc ops new_password'.
    destruct (consume_success_all_used env T tok new_password w w1 Hnd Hc) as [Hu Hd].
    apply terminal_forever; trivial. now rewrite Hd.
  - intros Hu ops new_password'. now apply terminal_forever.
Qed.

End SingleUse.

(** The term [consume_succeeds_at_most_once] at a concrete run: a reset is
    confirmed, then a cleanup, a new request and a retry follow, and the
    secret is refused. *)
Lemma consume_succeeds_at_most_once_witness :
  let w1 := snd (consume Example.env PasswordResetToken "s0" "NewPass1!"
                         Example.holding) in
  consume Example.env PasswordResetToken "s0" "NewPass1!" Example.holding
  = (Ok true, w1) /\
  (let w2 := run_ops Example.env Example.drf
               [CleanupExpiredTokens; SendPasswordResetEmail "a@b.com";
                ResetPassword "s0" "Again123!"] w1 in
   consume Example.env PasswordResetToken "s0" "Other123!" w2
   = (Ok false, tick w2)).
Proof.
  intros w1.
  assert (H1 : consume Example.env PasswordResetToken "s0" "NewPass1!"
                 Example.holding = (Ok true, w1)) by (vm_compute; reflexivity).
  split; [exact H1|].
  refine (proj1 (proj1 (consume_succeeds_at_most_once Example.env Example.drf
                          PasswordResetToken "s0" Example.holding _ _)
                       "NewPass1!" w1 H1
                       [CleanupExpiredTokens; SendPasswordResetEmail "a@b.com";
                        ResetPassword "s0" "Again123!"] "Other123!")).
  - cbn. constructor; [intros []|constructor].
  - intros m _. discriminate.
Defined.

(** ** Issuance *)

Section Issuance.

Variable env : Env.
Variable drf : Framework.

Lemma filter_length_le {A} (p q : A -> bool) (l : list A) :
  (forall x, p x = true -> q x = true) ->
  (List.length (filter p l) <= List.length (filter q l))%nat.
Proof.
  intros H. induction l as [|a l IH]; cbn; [lia|].
  destruct (p a) eqn:E.
  - rewrite (H a E). cbn. lia.
  - destruct (q a); cbn; lia.
Qed.

Lemma live_of_le_unused_of uid t rows :
  (List.length (live_of uid t rows) <= List.length (unused_of uid rows))%nat.
Proof.
  apply filter_length_le. intros x. unfold valid_at.
  rewrite !andb_true_iff. tauto.
Qed.

Lemma issue_issue_for T user w :
  (T = PasswordResetToken -> resolves w (email user) user) ->
  exists subj path, issue env T user w = issue_for env T user subj path w.
Proof.
  intros H. destruct T; cbn [issue].
  - exists "Reset your password", "/reset-password?token=".
    rewrite send_password_reset_email_issue_for.
    unfold resolves in H. now rewrite (H eq_refl).
  - exists "Verify your email address", "/verify-email?token=".
    now rewrite send_verification_email_issue_for.
Qed.

Lemma issue_for_objects T user subj path w :
  let w' := snd (issue_for env T user subj path w) in
  random_draws w' = S (random_draws w) /\
  ((insert_refused env T user w = true /\
    objects T w' =
      invalidated (user_pk user) (clock env (clock_reads w)) (objects T w)) \/
   (insert_refused env T user w = false /\
    objects T w' =
      (invalidated (user_pk user) (clock env (clock_reads w)) (objects T w)
       ++ [new_row env T user w])%list)).
Proof.
  cbv zeta. rewrite issue_for_run. cbv zeta.
  destruct (insert_refused env T user w); cbn [snd]; unfold before_insert;
    (split; [destruct T; reflexivity|]).
  - left. split; trivial. destruct T; reflexivity.
  - right. split; trivial. destruct T; reflexivity.
Qed.

Lemma invalidated_used uid t rows r :
  In r (invalidated uid t rows) -> user_id r = uid -> used_at r <> None.
Proof.
  unfold invalidated. rewrite in_map_iff. intros [y [Hy _]] Hu.
  destruct ((user_id y =? uid)%nat && is_null (used_at y)) eqn:E; subst r.
  - cbn. discriminate.
  - rewrite Hu, Nat.eqb_refl in E. cbn in E.
    destruct (used_at y); [discriminate|discriminate].
Qed.

Lemma issue_for_all_used T user subj path w r :
  NoDup (map token (objects T w)) ->
  In r (objects T w) -> user_id r = user_pk user ->
  all_used (token r) (objects T (snd (issue_for env T user subj path w))).
Proof.
  intros Hnd Hr Hu.
  assert (Hinv : forall x,
             In x (invalidated (user_pk user) (clock env (clock_reads w))
                               (objects T w)) ->
             token x = token r -> used_at x <> None).
  { intros x Hx Htok. apply (invalidated_used _ _ _ _ Hx).
    apply in_invalidated in Hx. destruct Hx as [y [Hy Hxy]].
    assert (token y = token r) by (destruct Hxy; subst x; exact Htok).
    assert (y = r) by (apply (NoDup_map_inj token (objects T w)); trivial).
    subst y. destruct Hxy; subst x; exact Hu. }
  destruct (issue_for_objects T user subj path w) as [_ [[_ E]|[Hins E]]];
    rewrite E; intros x Hx Htok.
  - now apply Hinv.
  - apply in_app_or in Hx. destruct Hx as [Hx|[<-|[]]]; [now apply Hinv|].
    exfalso. cbn in Htok.
    unfold insert_refused in Hins. apply orb_false_iff in Hins.
    destruct Hins as [Hins _].
    assert (Hex : existsb
              (fun r => (token r =? token_urlsafe env (random_draws w))%string)
              (invalidated (user_pk user) (clock env (clock_reads w))
                           (objects T w)) = true); [|congruence].
    apply existsb_exists.
    exists (if (user_id r =? user_pk user)%nat && is_null (used_at r)
            then set_used_at (clock env (clock_reads w)) r else r).
    split.
    + unfold invalidated. apply in_map_iff. exists r. auto.
    + apply String.eqb_eq. rewrite Htok. destruct (_ && _); reflexivity.
Qed.

(** C2. An issuer first sets [used_at] on every unused token of the user in
    its table, and then inserts at most the new row; from a store with at
    most one unused token per user and table, every sequence of operations
    leaves at most one token per user and table that is unused and unexpired,
    at any time; and a token of the user issued before is refused for ever
    after the second issuance (the random source not drawing its secret
    again). For the password reset the email is taken to resolve to the
    user. *)
Theorem issuance_invalidates_prior_tokens
    (T : TokenModel) (user : User) (w : World) :
  at_most_one_unused w ->
  NoDup (map token (objects T w)) ->
  (T = PasswordResetToken -> resolves w (email user) user) ->
  let w' := snd (issue env T user w) in
  let rows := invalidated (user_pk user) (clock env (clock_reads w))
                          (objects T w) in
  (objects T w' = rows \/ objects T w' = (rows ++ [new_row env T user w])%list) /\
  (forall r, In r rows -> user_id r = user_pk user -> used_at r <> None) /\
  (forall ops T' uid t,
      (List.length (live_of uid t (objects T' (run_ops env drf ops w))) <= 1)%nat) /\
  (forall r, In r (objects T w) -> user_id r = user_pk user ->
             never_drawn_from env (S (random_draws w)) (token r) ->
             forall ops new_password,
               let w2 := run_ops env drf ops w' in
               consume env T (token r) new_password w2 = (Ok false, tick w2) /\
               (forall r' t, In r' (objects T w2) -> token r' = token r ->
                             valid_at t r' = false)).
Proof.
  intros Hone Hnd Hres w' rows.
  destruct (issue_issue_for T user w Hres) as (subj & path & E).
  assert (Ew : w' = snd (issue_for env T user subj path w))
    by (unfold w'; now rewrite E).
  split; [|split; [|split]].
  - rewrite Ew.
    destruct (issue_for_objects T user subj path w) as [_ [[_ H]|[_ H]]];
      rewrite H; auto.
  - intros r Hr Hu. now apply (invalidated_used _ _ _ _ Hr).
  - intros ops T' uid t.
    eapply Nat.le_trans; [apply live_of_le_unused_of|].
    now apply run_ops_at_most_one_unused.
  - intros r Hr Hu Hn ops new_password.
    apply terminal_forever.
    + rewrite Ew. now apply issue_for_all_used.
    + rewrite Ew.
      destruct (issue_for_objects T user subj path w) as [-> _]. trivial.
Qed.

End Issuance.

(** The term [issuance_invalidates_prior_tokens] at a concrete run: the user
    holds an unused, unexpired reset token and asks for another one; the
    first secret is refused afterwards. *)
Lemma issuance_invalidates_prior_tokens_witness :
  let r := mkToken 0 1 "s0" 900 (900 + timedelta_hours 24) None in
  let w' := snd (issue Example.env PasswordResetToken Example.alice
                       Example.holding) in
  at_most_one_unused Example.holding /\
  NoDup (map token (objects PasswordResetToken Example.holding)) /\
  resolves Example.holding (email Example.alice) Example.alice /\
  (let w2 := run_ops Example.env Example.drf [CleanupExpiredTokens] w' in
   consume Example.env PasswordResetToken (token r) "NewPass1!" w2
   = (Ok false, tick w2)).
Proof.
  intros r w'.
  assert (H1 : at_most_one_unused Example.holding).
  { intros [] uid; destruct uid as [|[|uid]]; vm_compute; lia. }
  assert (H2 : NoDup (map token (objects PasswordResetToken Example.holding))).
  { cbn. constructor; [intros []|constructor]. }
  assert (H3 : resolves Example.holding (email Example.alice) Example.alice)
    by (vm_compute; reflexivity).
  split; [exact H1|split; [exact H2|split; [exact H3|]]].
  refine (proj1 (proj2 (proj2 (proj2
            (issuance_invalidates_prior_tokens Example.env Example.drf
               PasswordResetToken Example.alice Example.holding H1 H2
               (fun _ => H3)))) r _ _ _ [CleanupExpiredTokens] "NewPass1!")).
  - left. reflexivity.
  - reflexivity.
  - intros m _. discriminate.
Defined.

(** ** Expiry of an issued token *)

Section Expiry.

Variable env : Env.

(** C5, as the code has it. The row an issuer inserts expires exactly
    [TTL] after the clock reading taken to compute the expiry, 24 hours for
    a password reset and 72 hours for an email verification; [created_at] is
    stamped by a later reading of the clock, when the row is saved. So
    [expires_at] is [created_at] plus the lifetime exactly when the two
    readings are the same. *)
Theorem issued_token_expiry (T : TokenModel) (user : User) (w : World) :
  (T = PasswordResetToken -> resolves w (email user) user) ->
  insert_refused env T user w = false ->
  let w' := snd (issue env T user w) in
  let r := new_row env T user w in
  objects T w' =
    (invalidated (user_pk user) (clock env (clock_reads w)) (objects T w)
     ++ [r])%list /\
  expires_at r = clock env (S (clock_reads w)) + timedelta_hours (TTL T) /\
  created_at r = clock env (S (S (clock_reads w))) /\
  TTL PasswordResetToken = 24 /\
  TTL EmailVerificationToken = 72 /\
  (expires_at r = created_at r + timedelta_hours (TTL T) <->
   clock env (S (S (clock_reads w))) = clock env (S (clock_reads w))).
Proof.
  intros Hres Hins w' r.
  destruct (issue_issue_for env T user w Hres) as (subj & path & E).
  repeat split.
  - unfold w'. rewrite E.
    destruct (issue_for_objects env T user subj path w) as [_ [[H _]|[_ H]]];
      [congruence|exact H].
  - unfold r. cbn. lia.
  - unfold r. cbn. lia.
Qed.

End Expiry.

(** The term [issued_token_expiry] at a concrete run. *)
Lemma issued_token_expiry_witness :
  let r := new_row Example.env PasswordResetToken Example.alice
                   Example.fresh in
  resolves Example.fresh (email Example.alice) Example.alice /\
  insert_refused Example.env PasswordResetToken Example.alice Example.fresh
  = false /\
  expires_at r = clock Example.env (S (clock_reads Example.fresh))
                 + timedelta_hours (TTL PasswordResetToken).
Proof.
  intros r.
  assert (H0 : resolves Example.fresh (email Example.alice) Example.alice)
    by (vm_compute; reflexivity).
  assert (H : insert_refused Example.env PasswordResetToken Example.alice
                Example.fresh = false) by (vm_compute; reflexivity).
  split; [exact H0|split; [exact H|]].
  exact (proj1 (proj2 (issued_token_expiry Example.env PasswordResetToken
                         Example.alice Example.fresh (fun _ => H0) H))).
Defined.

(** C5 as the spec words it fails: with a clock that moves between the
    reading for the expiry and the stamping of [created_at], the one token
    that [send_verification_email] issues does not expire [created_at] plus
    72 hours. *)
Lemma issued_token_expiry_counterexample :
  exists r,
    objects EmailVerificationToken
      (snd (send_verification_email Example.env Example.alice Example.fresh))
    = [r] /\
    expires_at r <>
    created_at r + timedelta_hours EMAIL_VERIFICATION_EXPIRY_HOURS.
Proof.
  eexists. split; [vm_compute; reflexivity|].
  vm_compute. intros H. discriminate H.
Qed.

(** ** Consuming a token *)

Section Consume.

Variable env : Env.
Variable drf : Framework.

Lemma filter_unique {A B} (g : A -> B) (p : A -> bool) (l : list A) (r : A) :
  NoDup (map g l) -> In r l -> p r = true ->
  (forall x, In x l -> p x = true -> g x = g r) ->
  filter p l = [r].
Proof.
  induction l as [|a l IH]; cbn; intros Hnd Hin Hp H; [contradiction|].
  inversion Hnd as [|y l' Hnin Hnd']; subst.
  destruct Hin as [->|Hin].
  - rewrite Hp. f_equal. apply filter_none. intros x Hx.
    destruct (p x) eqn:E; trivial. exfalso. apply Hnin.
    rewrite <- (H x (or_intror Hx) E). now apply in_map.
  - destruct (p a) eqn:E.
    + exfalso. apply Hnin. rewrite (H a (or_introl eq_refl) E).
      now apply in_map.
    + apply IH; auto.
Qed.

Lemma matches_unique tok t rows r :
  NoDup (map token rows) -> In r rows -> token r = tok ->
  used_at r = None -> t < expires_at r ->
  filter (matches tok t) rows = [r].
Proof.
  intros Hnd Hin Htok Hu Ht.
  apply (filter_unique token); trivial.
  - unfold matches. rewrite Htok, String.eqb_refl, Hu. cbn.
    now apply Z.ltb_lt.
  - intros x _ Hx. unfold matches in Hx.
    apply andb_true_iff in Hx. destruct Hx as [Hx _].
    apply andb_true_iff in Hx. destruct Hx as [Hx _].
    apply String.eqb_eq in Hx. congruence.
Qed.

Lemma matches_none tok t rows :
  (forall r, In r rows -> token r = tok ->
             used_at r <> None \/ expires_at r <= t) ->
  filter (matches tok t) rows = [].
Proof.
  intros H. apply filter_none. intros r Hr. unfold matches.
  destruct (String.eqb_spec (token r) tok) as [E|]; trivial.
  destruct (H r Hr E) as [Hu|He].
  - destruct (used_at r); [reflexivity|congruence].
  - cbn. replace (t <? expires_at r) with false; [apply andb_false_r|].
    symmetry. apply Z.ltb_ge. exact He.
Qed.

Lemma related_user_pk us r u :
  related_user us r = Some u -> In u us /\ user_pk u = user_id r.
Proof.
  unfold related_user. intros H. apply find_some in H.
  destruct H as [Hin H]. apply Nat.eqb_eq in H. auto.
Qed.

Lemma consume_failure
    (T : TokenModel) (tok new_password : string) (w : World) :
  (forall r, In r (objects T w) -> token r = tok ->
             used_at r <> None \/ expires_at r <= clock env (clock_reads w)) ->
  consume env T tok new_password w = (Ok false, tick w) /\
  (T = PasswordResetToken ->
   forall request,
     PasswordResetConfirmSerializer drf (data request)
     = ret (tok, new_password) ->
     PasswordResetConfirmView_post env drf request w =
     (Ok (mkResponse [("error", JStr "Invalid or expired token.")]
                     HTTP_400_BAD_REQUEST), tick w)) /\
  (T = EmailVerificationToken ->
   forall request,
     EmailVerificationSerializer drf (data request) = ret tok ->
     EmailVerificationView_post env drf request w =
     (Ok (mkResponse [("error", JStr "Invalid or expired token.")]
                     HTTP_400_BAD_REQUEST), tick w)).
Proof.
  intros H.
  assert (Hc : forall pw, consume env T tok pw w = (Ok false, tick w)).
  { intros pw. apply consume_none. now apply matches_none. }
  split; [apply Hc|split].
  - intros -> request Hs.
    unfold PasswordResetConfirmView_post, bind at 1. rewrite Hs. cbn [ret].
    unfold bind. specialize (Hc new_password). cbn [consume] in Hc.
    rewrite Hc. reflexivity.
  - intros -> request Hs.
    unfold EmailVerificationView_post, bind at 1. rewrite Hs. cbn [ret].
    unfold bind. specialize (Hc new_password). cbn [consume] in Hc.
    rewrite Hc. reflexivity.
Qed.

(** C4. When no row of the table carries the secret with [used_at] null and
    [expires_at] after the clock reading, be it that the secret never
    existed, that its token has expired or that it was used or invalidated,
    the consumer returns [False] and writes nothing, and the two views
    answer with one and the same response, status 400 and the error
    "Invalid or expired token.". *)
Theorem consume_failure_is_uniform
    (T : TokenModel) (tok new_password : string) (w : World) :
  (forall r, In r (objects T w) -> token r = tok ->
             used_at r <> None \/ expires_at r <= clock env (clock_reads w)) ->
  consume env T tok new_password w = (Ok false, tick w) /\
  (T = PasswordResetToken ->
   forall request,
     PasswordResetConfirmSerializer drf (data request)
     = ret (tok, new_password) ->
     PasswordResetConfirmView_post env drf request w =
     (Ok (mkResponse [("error", JStr "Invalid or expired token.")]
                     HTTP_400_BAD_REQUEST), tick w)) /\
  (T = EmailVerificationToken ->
   forall request,
     EmailVerificationSerializer drf (data request) = ret tok ->
     EmailVerificationView_post env drf request w =
     (Ok (mkResponse [("error", JStr "Invalid or expired token.")]
                     HTTP_400_BAD_REQUEST), tick w)).
Proof.
  intros H.
  assert (Hc : forall pw, consume env T tok pw w = (Ok false, tick w)).
  { intros pw. apply consume_none. now apply matches_none. }
  split; [apply Hc|split].
  - intros -> request Hs.
    unfold PasswordResetConfirmView_post, bind at 1. rewrite Hs. cbn [ret].
    unfold bind. specialize (Hc new_password). cbn [consume] in Hc.
    rewrite Hc. reflexivity.
  - intros -> request Hs.
    unfold EmailVerificationView_post, bind at 1. rewrite Hs. cbn [ret].
    unfold bind. specialize (Hc new_password). cbn [consume] in Hc.
    rewrite Hc. reflexivity.
Qed.

(** C6. [reset_password] with the secret of a token that is unused and
    unexpired returns [True], sets the [used_at] of that token and writes
    the hash of the new password to the user the token belongs to, and the
    view answers 200; with a secret that matches no unused, unexpired token
    it returns [False], the view answers 400 with the uniform error, and
    neither a user nor a token row is changed. *)
Theorem reset_password_confirm
    (tok new_password : string) (w : World) (r : Token) (u : User) :
  NoDup (map token (password_reset_tokens w)) ->
  In r (password_reset_tokens w) ->
  token r = tok ->
  used_at r = None ->
  clock env (clock_reads w) < expires_at r ->
  related_user (users w) r = Some u ->
  (exists w',
      reset_password env tok new_password w = (Ok true, w') /\
      password_reset_tokens w' =
        map (fun r' => if (token_pk r' =? token_pk r)%nat
                       then set_used_at (clock env (S (clock_reads w))) r
                       else r') (password_reset_tokens w) /\
      In (set_used_at (clock env (S (clock_reads w))) r)
         (password_reset_tokens w') /\
      users w' =
        map (fun x => if (user_pk x =? user_id r)%nat
                      then set_updated_at (clock env (S (S (clock_reads w))))
                             (set_password (make_password env new_password) x)
                      else x) (users w) /\
      (forall x, In x (users w') -> user_pk x = user_id r ->
                 password x = make_password env new_password) /\
      (forall request,
          PasswordResetConfirmSerializer drf (data request)
          = ret (tok, new_password) ->
          PasswordResetConfirmView_post env drf request w =
          (Ok (mkResponse [("message", JStr "Password reset successfully.")]
                          HTTP_200_OK), w'))) /\
  (forall tok',
      (forall r', In r' (password_reset_tokens w) -> token r' = tok' ->
                  used_at r' <> None \/
                  expires_at r' <= clock env (clock_reads w)) ->
      reset_password env tok' new_password w = (Ok false, tick w) /\
      users (tick w) = users w /\
      password_reset_tokens (tick w) = password_reset_tokens w /\
      email_verification_tokens (tick w) = email_verification_tokens w /\
      (forall request,
          PasswordResetConfirmSerializer drf (data request)
          = ret (tok', new_password) ->
          PasswordResetConfirmView_post env drf request w =
          (Ok (mkResponse [("error", JStr "Invalid or expired token.")]
                          HTTP_400_BAD_REQUEST), tick w))).
Proof.
  intros Hnd Hin Htok Hu Ht Hrel. split.
  - pose proof (matches_unique tok (clock env (clock_reads w))
                  (password_reset_tokens w) r Hnd Hin Htok Hu Ht) as Hf.
    destruct (related_user_pk _ _ _ Hrel) as [Huin Hpk].
    assert (Hrun : reset_password env tok new_password w =
              (Ok true,
               set_users
                 (map (fun x => if (user_pk x =? user_pk u)%nat
                        then set_updated_at (clock env (S (S (clock_reads w))))
                               (set_password (make_password env new_password) x)
                        else x) (users w))
                 (tick (set_objects PasswordResetToken
                    (map (fun r' => if (token_pk r' =? token_pk r)%nat
                            then set_used_at (clock env (S (clock_reads w))) r
                            else r') (password_reset_tokens w))
                    (tick (tick w)))))).
    { change (reset_password env tok new_password)
        with (consume env PasswordResetToken tok new_password).
      rewrite consume_consume_with, consume_with_run. cbn [objects].
      rewrite Hf. cbn [select_related flat_map]. rewrite Hrel. reflexivity. }
    eexists. split; [exact Hrun|]. cbn [set_users set_objects tick users
      password_reset_tokens]. rewrite Hpk.
    split; [reflexivity|]. split; [|split; [reflexivity|split]].
    + apply in_map_iff. exists r. rewrite Nat.eqb_refl. auto.
    + intros x Hx Hxpk. apply in_map_iff in Hx.
      destruct Hx as [y [Hy _]].
      destruct (user_pk y =? user_id r)%nat eqn:E; subst x.
      * reflexivity.
      * apply Nat.eqb_neq in E. contradiction.
    + intros request Hs.
      unfold PasswordResetConfirmView_post, bind at 1. rewrite Hs. cbn [ret].
      unfold bind. rewrite Hrun. rewrite Hpk. reflexivity.
  - intros tok' Hnone.
    destruct (consume_failure PasswordResetToken tok' new_password
                w Hnone) as (Hc & Hv & _).
    repeat split; trivial. now apply Hv.
Qed.

End Consume.

(** The term [consume_failure_is_uniform] at a concrete run: a secret that
    was never issued. *)
Lemma consume_failure_is_uniform_witness :
  (forall r, In r (objects PasswordResetToken Example.holding) ->
             token r = "nope" ->
             used_at r <> None \/
             expires_at r <= clock Example.env (clock_reads Example.holding)) /\
  consume Example.env PasswordResetToken "nope" "NewPass1!" Example.holding
  = (Ok false, tick Example.holding).
Proof.
  assert (H : forall r, In r (objects PasswordResetToken Example.holding) ->
             token r = "nope" ->
             used_at r <> None \/
             expires_at r <= clock Example.env (clock_reads Example.holding)).
  { intros r [<-|[]] H. discriminate H. }
  split; [exact H|].
  exact (proj1 (consume_failure_is_uniform Example.env Example.drf
                  PasswordResetToken "nope" "NewPass1!" Example.holding H)).
Defined.

(** The term [reset_password_confirm] at a concrete run: the reset token the
    user holds is confirmed. *)
Lemma reset_password_confirm_witness :
  let r := mkToken 0 1 "s0" 900 (900 + timedelta_hours 24) None in
  NoDup (map token (password_reset_tokens Example.holding)) /\
  In r (password_reset_tokens Example.holding) /\
  clock Example.env (clock_reads Example.holding) < expires_at r /\
  related_user (users Example.holding) r = Some Example.alice /\
  exists w',
    reset_password Example.env "s0" "NewPass1!" Example.holding = (Ok true, w').
Proof.
  intros r.
  assert (H1 : NoDup (map token (password_reset_tokens Example.holding))).
  { cbn. constructor; [intros []|constructor]. }
  assert (H2 : In r (password_reset_tokens Example.holding))
    by (left; reflexivity).
  assert (H3 : clock Example.env (clock_reads Example.holding) < expires_at r)
    by (vm_compute; reflexivity).
  assert (H4 : related_user (users Example.holding) r = Some Example.alice)
    by (vm_compute; reflexivity).
  split; [exact H1|split; [exact H2|split; [exact H3|split; [exact H4|]]]].
  destruct (proj1 (reset_password_confirm Example.env Example.drf "s0"
                     "NewPass1!" Example.holding r Example.alice
                     H1 H2 eq_refl eq_refl H3 H4)) as [w' [H _]].
  exists w'. exact H.
Defined.

(** ** The views *)

Section ViewTheorems.

Variable env : Env.
Variable drf : Framework.

(** C3. For a request whose email the serializer accepts,
    [PasswordResetRequestView.post] answers with one and the same response,
    status 200, whether or not the email resolves to an active user. When it
    does not resolve, the world is left as it was: no token row, no call of
    [send_mail], not even a reading of the clock. When it resolves (and the
    store accepts the insert), exactly the new token row is appended and one
    mail is handed to the dispatcher. *)
Theorem password_reset_request_uniform
    (request : Request) (mail : string) (w : World) :
  PasswordResetRequestSerializer drf (data request) = ret mail ->
  let success :=
    mkResponse
      [("message",
        JStr "If an account exists, a password reset email has been sent.")]
      HTTP_200_OK in
  (unresolved w mail ->
   PasswordResetRequestView_post env drf request w = (Ok success, w)) /\
  (forall user,
      resolves w mail user ->
      insert_refused env PasswordResetToken user w = false ->
      exists w',
        PasswordResetRequestView_post env drf request w = (Ok success, w') /\
        password_reset_tokens w' =
          (invalidated (user_pk user) (clock env (clock_reads w))
                       (password_reset_tokens w)
           ++ [new_row env PasswordResetToken user w])%list /\
        outbox w' =
          (outbox w ++
           [mkMail "Reset your password" [email user]
              (FRONTEND_URL env ++ "/reset-password?token="
               ++ token_urlsafe env (random_draws w))%string
              PASSWORD_RESET_EXPIRY_HOURS])%list).
Proof.
  intros Hs success. split.
  - intros Hun.
    unfold PasswordResetRequestView_post, bind at 1. rewrite Hs. cbn [ret].
    unfold bind. rewrite send_password_reset_email_issue_for.
    unfold unresolved in Hun. rewrite Hun. reflexivity.
  - intros user Hres Hins.
    unfold PasswordResetRequestView_post, bind at 1. rewrite Hs. cbn [ret].
    unfold bind. rewrite send_password_reset_email_issue_for.
    unfold resolves in Hres. rewrite Hres.
    rewrite issue_for_run. cbv zeta. rewrite Hins.
    eexists. split; [reflexivity|]. split; reflexivity.
Qed.

Lemma filter_filter_absorb {A} (p q : A -> bool) (l : list A) :
  (forall x, p x = true -> q x = true) ->
  filter p (filter q l) = filter p l.
Proof.
  intros H. induction l as [|a l IH]; cbn; [reflexivity|].
  destruct (q a) eqn:Eq; cbn; rewrite IH; trivial.
  destruct (p a) eqn:Ep; trivial.
  rewrite (H a Ep) in Eq. discriminate.
Qed.

(** C9. [cleanup_expired_tokens] deletes from both tables the rows whose
    [expires_at] is before its clock reading, and nothing else; and, the
    clock not going backwards from that reading to the next, a consumer
    called after the sweep returns what it returns when the sweep is left
    out, and leaves the same users. *)
Theorem cleanup_has_no_semantic_effect
    (T : TokenModel) (tok new_password : string) (w : World) :
  clock env (clock_reads w) <= clock env (S (clock_reads w)) ->
  let swept := snd (cleanup_expired_tokens env w) in
  (forall T',
      objects T' swept =
      filter (fun r => negb (expires_at r <? clock env (clock_reads w)))
             (objects T' w)) /\
  users swept = users w /\
  fst (consume env T tok new_password swept)
  = fst (consume env T tok new_password (tick w)) /\
  users (snd (consume env T tok new_password swept))
  = users (snd (consume env T tok new_password (tick w))).
Proof.
  intros Hmono swept.
  assert (Hobj : forall T',
             objects T' swept =
             filter (fun r => negb (expires_at r <? clock env (clock_reads w)))
                    (objects T' w)).
  { intros T'. unfold swept. rewrite cleanup_expired_tokens_run.
    destruct T'; reflexivity. }
  assert (Hf : filter (matches tok (clock env (S (clock_reads w))))
                 (objects T swept)
               = filter (matches tok (clock env (S (clock_reads w))))
                   (objects T w)).
  { rewrite Hobj. apply filter_filter_absorb. intros x Hx.
    unfold matches in Hx. apply andb_true_iff in Hx. destruct Hx as [_ Hx].
    apply Z.ltb_lt in Hx. apply negb_true_iff. apply Z.ltb_ge. lia. }
  split; [exact Hobj|]. split; [reflexivity|].
  rewrite !consume_consume_with, !consume_with_run.
  change (clock_reads swept) with (S (clock_reads w)).
  change (clock_reads (tick w)) with (S (clock_reads w)).
  change (users swept) with (users w).
  change (users (tick w)) with (users w).
  change (objects T (tick w)) with (objects T w) at 1 2.
  rewrite Hf.
  destruct (select_related _ _) as [|[r u] [|x l]]; cbn [fst snd];
    split; reflexivity.
Qed.

(** C7. An active user whose email is not verified logs in with the right
    password: [LoginView.post] answers 200 with a refresh and an access
    token and the user's data. The base authentication is the one the spec
    describes. *)
Theorem login_does_not_require_verification
    (request : Request) (mail pw : string) (user : User) (w : World) :
  dict_get "email" (data request) = Some mail ->
  dict_get "password" (data request) = Some pw ->
  find (fun u => String.eqb (email u) (lower mail)) (users w) = Some user ->
  is_active user = true ->
  email_verified user = false ->
  check_password drf pw (password user) = true ->
  exists refresh access w',
    LoginView_post env drf request w =
    (Ok (mkResponse [("refresh", JStr refresh); ("access", JStr access);
                     ("user", JObj (UserSerializer user))] HTTP_200_OK), w') /\
    dict_get "email_verified" (UserSerializer user) = Some (JBool false).
Proof.
  intros He Hp Hf Ha Hv Hc.
  unfold LoginView_post, TokenObtainPairView_post,
    CustomTokenObtainPairSerializer_validate,
    TokenObtainPairSerializer_validate.
  rewrite He, Hp. unfold bind, ret, now. cbn [users].
  rewrite Hf, Ha, Hc. cbn.
  do 3 eexists. split; [reflexivity|].
  rewrite Hv. reflexivity.
Qed.

(** C10. [LogoutView.post] on a body without a refresh token answers 200,
    "Logged out successfully.", and leaves the world as it was: nothing is
    revoked. A refresh token that no unrevoked session carries gets the
    other response, 400 "Invalid token.". *)
Theorem logout_without_refresh_token (request : Request) (w : World) :
  dict_get "refresh" (data request) = None ->
  LogoutView_post request w =
  (Ok (mkResponse [("message", JStr "Logged out successfully.")] HTTP_200_OK),
   w) /\
  (forall request' tok,
      dict_get "refresh" (data request') = Some tok ->
      tok <> "" ->
      existsb (fun s => String.eqb (session_id s) tok && negb (revoked s))
              (sessions w) = false ->
      LogoutView_post request' w =
      (Ok (mkResponse [("error", JStr "Invalid token.")] HTTP_400_BAD_REQUEST),
       w)).
Proof.
  intros Hnone. split.
  - unfold LogoutView_post, try_except, bind, ret. rewrite Hnone. reflexivity.
  - intros request' tok Hsome Hne Hex.
    unfold LogoutView_post, try_except, bind, ret, RefreshToken_blacklist.
    rewrite Hsome. cbn [truthy].
    destruct (String.eqb_spec tok "") as [E|_]; [contradiction|].
    cbn [negb]. rewrite Hex. reflexivity.
Qed.

End ViewTheorems.

(** The term [password_reset_request_uniform] at a concrete run: an email no
    user has. *)
Lemma password_reset_request_uniform_witness :
  let request := mkRequest [("email", "Nobody@X.com")] [] None in
  PasswordResetRequestSerializer Example.drf (data request)
  = ret "nobody@x.com" /\
  unresolved Example.holding "nobody@x.com" /\
  PasswordResetRequestView_post Example.env Example.drf request Example.holding
  = (Ok (mkResponse
           [("message",
             JStr "If an account exists, a password reset email has been sent.")]
           HTTP_200_OK), Example.holding).
Proof.
  intros request.
  assert (H1 : PasswordResetRequestSerializer Example.drf (data request)
               = ret "nobody@x.com") by (vm_compute; reflexivity).
  assert (H2 : unresolved Example.holding "nobody@x.com")
    by (vm_compute; reflexivity).
  split; [exact H1|split; [exact H2|]].
  exact (proj1 (password_reset_request_uniform Example.env Example.drf request
                  "nobody@x.com" Example.holding H1) H2).
Defined.

(** The term [cleanup_has_no_semantic_effect] at a concrete run. *)
Lemma cleanup_has_no_semantic_effect_witness :
  clock Example.env (clock_reads Example.holding)
  <= clock Example.env (S (clock_reads Example.holding)) /\
  fst (consume Example.env PasswordResetToken "s0" "NewPass1!"
         (snd (cleanup_expired_tokens Example.env Example.holding)))
  = fst (consume Example.env PasswordResetToken "s0" "NewPass1!"
           (tick Example.holding)).
Proof.
  assert (H : clock Example.env (clock_reads Example.holding)
              <= clock Example.env (S (clock_reads Example.holding)))
    by (vm_compute; discriminate).
  split; [exact H|].
  exact (proj1 (proj2 (proj2
           (cleanup_has_no_semantic_effect Example.env PasswordResetToken
              "s0" "NewPass1!" Example.holding H)))).
Defined.

(** The term [login_does_not_require_verification] at a concrete run. *)
Lemma login_does_not_require_verification_witness :
  let request :=
    mkRequest [("email", "a@b.com"); ("password", "Secret123!")] [] None in
  is_active Example.alice = true /\
  email_verified Example.alice = false /\
  check_password Example.drf "Secret123!" (password Example.alice) = true /\
  exists refresh access w',
    LoginView_post Example.env Example.drf request Example.fresh =
    (Ok (mkResponse [("refresh", JStr refresh); ("access", JStr access);
                     ("user", JObj (UserSerializer Example.alice))]
                    HTTP_200_OK), w').
Proof.
  intros request.
  assert (H : check_password Example.drf "Secret123!" (password Example.alice)
              = true) by (vm_compute; reflexivity).
  split; [reflexivity|split; [reflexivity|split; [exact H|]]].
  destruct (login_does_not_require_verification Example.env Example.drf
              request "a@b.com" "Secret123!" Example.alice Example.fresh
              eq_refl eq_refl eq_refl eq_refl eq_refl H)
    as (refresh & access & w' & Hrun & _).
  exists refresh, access, w'. exact Hrun.
Defined.

(** The term [logout_without_refresh_token] at a concrete run. *)
Lemma logout_without_refresh_token_witness :
  let request := mkRequest [] [] (Some Example.alice) in
  dict_get "refresh" (data request) = None /\
  LogoutView_post request Example.fresh =
  (Ok (mkResponse [("message", JStr "Logged out successfully.")] HTTP_200_OK),
   Example.fresh).
Proof.
  intros request. split; [reflexivity|].
  exact (proj1 (logout_without_refresh_token request Example.fresh eq_refl)).
Defined.

(** ** The rate limiter *)

Module RateLimiterFacts.

Import RateLimiter.

Lemma dict_get_set_counter key c st :
  dict_get key (set_counter key c st) = Some c.
Proof.
  induction st as [|[k c'] st IH]; cbn.
  - now rewrite String.eqb_refl.
  - destruct (String.eqb k key) eqn:E; cbn; rewrite E; auto.
Qed.

Lemma requests_in_window key limit window start ts :
  forall n st,
    dict_get key st = Some (mkCounter start n) ->
    (forall x, In x ts -> x < start + window) ->
    exists st',
      requests key limit window ts st =
      ((repeat Allowed (Nat.min (limit - n) (List.length ts)) ++
        repeat Rejected (List.length ts - (limit - n)))%list, st') /\
      dict_get key st' =
      Some (mkCounter start (n + Nat.min (limit - n) (List.length ts))).
Proof.
  induction ts as [|t ts IH]; intros n st Hst Hin.
  - exists st. cbn. rewrite Nat.min_0_r, Nat.add_0_r. auto.
  - cbn [requests]. unfold tryAcquire. rewrite Hst. cbn [window_start count].
    assert (Ht : (t <? start + window) = true)
      by (apply Z.ltb_lt, Hin; now left).
    rewrite Ht. cbn [window_start count].
    destruct (n <? limit)%nat eqn:En.
    + apply Nat.ltb_lt in En.
      destruct (IH (S n) (set_counter key (mkCounter start (S n)) st)
                  (dict_get_set_counter _ _ _)
                  (fun x Hx => Hin x (or_intror Hx))) as (st' & Hr & Hg).
      exists st'. rewrite Hr. cbn [List.length].
      replace (Nat.min (limit - n) (S (List.length ts)))
        with (S (Nat.min (limit - S n) (List.length ts))) by lia.
      replace (S (List.length ts) - (limit - n))%nat
        with (List.length ts - (limit - S n))%nat by lia.
      split; [reflexivity|]. rewrite Hg. do 2 f_equal. lia.
    + apply Nat.ltb_ge in En.
      destruct (IH n st Hst (fun x Hx => Hin x (or_intror Hx)))
        as (st' & Hr & Hg).
      exists st'. rewrite Hr. cbn [List.length].
      replace (limit - n)%nat with 0%nat in * by lia.
      cbn. rewrite Nat.sub_0_r. split; [reflexivity|].
      rewrite Hg. cbn. reflexivity.
Qed.

Lemma limit_then_reset key limit window st t0 ts t :
  (1 <= limit)%nat ->
  dict_get key st = None ->
  List.length ts = limit ->
  (forall x, In x ts -> x < t0 + window) ->
  t0 + window <= t ->
  exists st',
    requests key limit window (t0 :: ts) st =
    ((repeat Allowed limit ++ [Rejected])%list, st') /\
    fst (tryAcquire key limit window t st') = Allowed.
Proof.
  intros Hl Hst Hlen Hin Ht.
  cbn [requests]. unfold tryAcquire at 1. rewrite Hst. cbn [count window_start].
  replace (0 <? limit)%nat with true by (symmetry; apply Nat.ltb_lt; lia).
  destruct (requests_in_window key limit window t0 ts 1
              (set_counter key (mkCounter t0 1) st)
              (dict_get_set_counter _ _ _) Hin) as (st' & Hr & Hg).
  exists st'. rewrite Hr. rewrite Hlen in *.
  replace (Nat.min (limit - 1) limit) with (limit - 1)%nat in * by lia.
  replace (limit - (limit - 1))%nat with 1%nat by lia.
  split.
  - f_equal. destruct limit as [|l]; [lia|].
    cbn. now rewrite Nat.sub_0_r.
  - unfold tryAcquire. rewrite Hg. cbn [window_start count].
    replace (t <? t0 + window) with false by (symmetry; apply Z.ltb_ge; lia).
    cbn [count].
    replace (0 <? limit)%nat with true by (symmetry; apply Nat.ltb_lt; lia).
    reflexivity.
Qed.

(** C8. With the rates of the two throttle classes, five an hour for the
    registration and three an hour for the password reset request, and a
    limiter as the spec describes it: of the requests of one key that arrive
    within an hour of the first, the first [limit] are allowed and the next
    one is rejected; and a request that arrives once the hour has elapsed is
    allowed. Times are in seconds. *)
Theorem rate_limiter_rejects_beyond_limit
    (c : ThrottleClass) (key : string) (st : Counters) (t0 : Z)
    (ts : list Z) (t : Z) :
  let limit := match c with
               | RegistrationThrottle => 5%nat
               | PasswordResetThrottle => 3%nat
               end in
  dict_get key st = None ->
  List.length ts = limit ->
  (forall x, In x ts -> x < t0 + 3600) ->
  t0 + 3600 <= t ->
  parse_rate (rate c) = Some (limit, 3600) /\
  exists st',
    allow_requests c key (t0 :: ts) st =
    Some ((repeat Allowed limit ++ [Rejected])%list, st') /\
    fst (tryAcquire key limit 3600 t st') = Allowed.
Proof.
  intros limit Hst Hlen Hin Ht.
  assert (Hp : parse_rate (rate c) = Some (limit, 3600))
    by (destruct c; reflexivity).
  split; [exact Hp|].
  unfold allow_requests. rewrite Hp.
  destruct (limit_then_reset key limit 3600 st t0 ts t) as (st' & Hr & Ha);
    trivial.
  - destruct c; cbn; lia.
  - exists st'. rewrite Hr. auto.
Qed.

(** The term [rate_limiter_rejects_beyond_limit] at a concrete run: four
    password reset requests of one address within a minute, and a fifth
    after an hour. *)
Lemma rate_limiter_rejects_beyond_limit_witness :
  dict_get "10.0.0.1" ([] : Counters) = None /\
  (forall x, In x [10; 20; 30] -> x < 0 + 3600) /\
  0 + 3600 <= 3600 /\
  exists st',
    allow_requests PasswordResetThrottle "10.0.0.1" [0; 10; 20; 30] [] =
    Some ([Allowed; Allowed; Allowed; Rejected], st') /\
    fst (tryAcquire "10.0.0.1" 3 3600 3600 st') = Allowed.
Proof.
  assert (H : forall x, In x [10; 20; 30] -> x < 0 + 3600).
  { intros x [<-|[<-|[<-|[]]]]; reflexivity. }
  assert (H' : 0 + 3600 <= 3600) by (vm_compute; discriminate).
  split; [reflexivity|split; [exact H|split; [exact H'|]]].
  exact (proj2 (rate_limiter_rejects_beyond_limit PasswordResetThrottle
                  "10.0.0.1" [] 0 [10; 20; 30] 3600 eq_refl eq_refl H H')).
Defined.

End RateLimiterFacts.

(** C3 as the spec words it fails in its last clause: the two requests get
    the same response, but not after work of the same shape. For the email
    no user has, the view returns with the world untouched; for the email of
    a user it has read the clock three times, drawn a secret, written a
    token row and handed a mail to the dispatcher. *)
Lemma password_reset_request_uniform_counterexample :
  let unknown := mkRequest [("email", "nobody@x.com")] [] None in
  let known := mkRequest [("email", "a@b.com")] [] None in
  let r1 := PasswordResetRequestView_post Example.env Example.drf unknown
              Example.fresh in
  let r2 := PasswordResetRequestView_post Example.env Example.drf known
              Example.fresh in
  fst r1 = fst r2 /\
  snd r1 = Example.fresh /\
  clock_reads (snd r2) = (3 + clock_reads Example.fresh)%nat /\
  random_draws (snd r2) = (1 + random_draws Example.fresh)%nat /\
  List.length (password_reset_tokens (snd r2)) = 1%nat /\
  List.length (outbox (snd r2)) = 1%nat /\
  clock_reads (snd r1) <> clock_reads (snd r2).
Proof.
  vm_compute. repeat split; try reflexivity. intros H. discriminate H.
Qed.

(** ** Further properties of the services *)

Section MoreServices.

Variable env : Env.
Variable drf : Framework.

(** X1. [verify_email] with the secret of an unused, unexpired verification
    token returns [True], sets the [used_at] of that token and the
    [email_verified] flag of the user it belongs to, and
    [EmailVerificationView.post] answers 200; it changes no password, no
    reset token and sends no mail. *)
Theorem verify_email_confirm (tok : string) (w : World) (r : Token) (u : User) :
  NoDup (map token (email_verification_tokens w)) ->
  In r (email_verification_tokens w) ->
  token r = tok ->
  used_at r = None ->
  clock env (clock_reads w) < expires_at r ->
  related_user (users w) r = Some u ->
  exists w',
    verify_email env tok w = (Ok true, w') /\
    email_verification_tokens w' =
      map (fun r' => if (token_pk r' =? token_pk r)%nat
                     then set_used_at (clock env (S (clock_reads w))) r
                     else r') (email_verification_tokens w) /\
    (forall x, In x (users w') -> user_pk x = user_id r ->
               email_verified x = true) /\
    map password (users w') = map password (users w) /\
    map email (users w') = map email (users w) /\
    password_reset_tokens w' = password_reset_tokens w /\
    outbox w' = outbox w /\
    (forall request,
        EmailVerificationSerializer drf (data request) = ret tok ->
        EmailVerificationView_post env drf request w =
        (Ok (mkResponse [("message", JStr "Email verified successfully.")]
                        HTTP_200_OK), w')).
Proof.
  intros Hnd Hin Htok Hu Ht Hrel.
  pose proof (matches_unique tok (clock env (clock_reads w))
                (email_verification_tokens w) r Hnd Hin Htok Hu Ht) as Hf.
  destruct (related_user_pk _ _ _ Hrel) as [Huin Hpk].
  assert (Hrun : verify_email env tok w =
            (Ok true,
             set_users
               (map (fun x => if (user_pk x =? user_pk u)%nat
                      then set_updated_at (clock env (S (S (clock_reads w))))
                             (set_email_verified true x)
                      else x) (users w))
               (tick (set_objects EmailVerificationToken
                  (map (fun r' => if (token_pk r' =? token_pk r)%nat
                          then set_used_at (clock env (S (clock_reads w))) r
                          else r') (email_verification_tokens w))
                  (tick (tick w)))))).
  { change (verify_email env tok)
      with (consume env EmailVerificationToken tok "").
    rewrite consume_consume_with, consume_with_run. cbn [objects].
    rewrite Hf. cbn [select_related flat_map]. rewrite Hrel. reflexivity. }
  eexists. split; [exact Hrun|].
  cbn [set_users set_objects tick users email_verification_tokens
       password_reset_tokens outbox].
  rewrite Hpk.
  split; [reflexivity|]. split; [|split; [|split; [|split; [|split]]]];
    try reflexivity.
  - intros x Hx Hxpk. apply in_map_iff in Hx. destruct Hx as [y [Hy _]].
    destruct (user_pk y =? user_id r)%nat eqn:E; subst x.
    + reflexivity.
    + apply Nat.eqb_neq in E. contradiction.
  - apply map_map_same. intros x _. destruct (_ =? _)%nat; reflexivity.
  - apply map_map_same. intros x _. destruct (_ =? _)%nat; reflexivity.
  - intros request Hs.
    unfold EmailVerificationView_post, bind at 1. rewrite Hs. cbn [ret].
    unfold bind. rewrite Hrun. rewrite Hpk. reflexivity.
Qed.

(** X2. [ResendVerificationView.post] answers 400 "Email already verified."
    for a verified user and touches nothing; for an unverified user it calls
    the issuer: when the store accepts the insert it answers 200, the user's
    earlier unused verification tokens are invalidated, the new row is
    appended and one mail goes out; when the store refuses the insert the
    exception leaves the view, no mail is sent, and the earlier tokens stay
    invalidated (the code opens no transaction). *)
Theorem resend_verification (user : User) (w : World) :
  (email_verified user = true ->
   ResendVerificationView_post env user w =
   (Ok (mkResponse [("message", JStr "Email already verified.")]
                   HTTP_400_BAD_REQUEST), w)) /\
  (email_verified user = false ->
   insert_refused env EmailVerificationToken user w = false ->
   exists w',
     ResendVerificationView_post env user w =
     (Ok (mkResponse [("message", JStr "Verification email sent.")]
                     HTTP_200_OK), w') /\
     email_verification_tokens w' =
       (invalidated (user_pk user) (clock env (clock_reads w))
                    (email_verification_tokens w)
        ++ [new_row env EmailVerificationToken user w])%list /\
     outbox w' =
       (outbox w ++
        [mkMail "Verify your email address" [email user]
           (FRONTEND_URL env ++ "/verify-email?token="
            ++ token_urlsafe env (random_draws w))%string
           EMAIL_VERIFICATION_EXPIRY_HOURS])%list) /\
  (email_verified user = false ->
   insert_refused env EmailVerificationToken user w = true ->
   exists w',
     ResendVerificationView_post env user w = (Raise IntegrityError, w') /\
     email_verification_tokens w' =
       invalidated (user_pk user) (clock env (clock_reads w))
                   (email_verification_tokens w) /\
     outbox w' = outbox w).
Proof.
  split; [|split].
  - intros Hv. unfold ResendVerificationView_post. now rewrite Hv.
  - intros Hv Hins. unfold ResendVerificationView_post. rewrite Hv.
    unfold bind at 1. rewrite send_verification_email_issue_for, issue_for_run.
    cbv zeta. rewrite Hins. eexists. split; [reflexivity|].
    split; reflexivity.
  - intros Hv Hins. unfold ResendVerificationView_post. rewrite Hv.
    unfold bind at 1. rewrite send_verification_email_issue_for, issue_for_run.
    cbv zeta. rewrite Hins. eexists. split; [reflexivity|].
    split; reflexivity.
Qed.

Lemma lower_ascii_idempotent c : lower_ascii (lower_ascii c) = lower_ascii c.
Proof.
  destruct c as [[] [] [] [] [] [] [] []]; reflexivity.
Qed.

Lemma lower_idempotent s : lower (lower s) = lower s.
Proof.
  induction s as [|c s IH]; cbn; [reflexivity|].
  now rewrite lower_ascii_idempotent, IH.
Qed.

(** X3. The password reset request looks the user up without regard to the
    case of the letters: two emails that are equal once lower-cased are
    treated alike by [send_password_reset_email], and the email the request
    serializer hands on is already in lower case. *)
Theorem password_reset_email_case_insensitive (mail mail' : string) (w : World) :
  lower mail = lower mail' ->
  send_password_reset_email env mail w = send_password_reset_email env mail' w /\
  send_password_reset_email env (lower mail) w
  = send_password_reset_email env mail w /\
  (forall d v, PasswordResetRequestSerializer drf d = ret v -> lower v = v).
Proof.
  intros H. split; [|split].
  - rewrite !send_password_reset_email_issue_for. now rewrite H.
  - rewrite !send_password_reset_email_issue_for. now rewrite lower_idempotent.
  - intros d v. unfold PasswordResetRequestSerializer.
    destruct (run_field (EmailField drf) "email" d) as [x|n]; intros Hs.
    + assert (Hx : ret (lower x) w = ret v w) by now rewrite Hs.
      inversion Hx. apply lower_idempotent.
    + assert (Hx : raise (A := string) (ValidationError [n]) w = ret v w)
        by now rewrite Hs.
      discriminate Hx.
Qed.

(** X4. [Token.is_valid()] and the consumer agree: in a table with a unique
    [token] column, for a row whose user exists, [reset_password] (or
    [verify_email]) called with the secret of the row returns exactly what
    [is_valid()] returns for the row at the same clock reading. *)
Theorem is_valid_agrees_with_consume
    (T : TokenModel) (new_password : string) (w : World) (r : Token) (u : User) :
  NoDup (map token (objects T w)) ->
  In r (objects T w) ->
  related_user (users w) r = Some u ->
  fst (consume env T (token r) new_password w) = fst (is_valid env r w) /\
  fst (is_valid env r w) = Ok (valid_at (clock env (clock_reads w)) r).
Proof.
  intros Hnd Hin Hrel.
  assert (Hv : fst (is_valid env r w) = Ok (valid_at (clock env (clock_reads w)) r)).
  { unfold is_valid, valid_at. destruct (used_at r); reflexivity. }
  split; [|exact Hv]. rewrite Hv.
  rewrite consume_consume_with, consume_with_run.
  unfold valid_at. destruct (used_at r) as [t|] eqn:Hu; cbn [is_null andb].
  - rewrite matches_none; [reflexivity|].
    intros r' Hr' Htok.
    assert (r' = r) by (apply (NoDup_map_inj token (objects T w)); trivial).
    subst r'. left. congruence.
  - destruct (clock env (clock_reads w) <? expires_at r) eqn:Ht.
    + apply Z.ltb_lt in Ht.
      rewrite (matches_unique (token r) _ _ r Hnd Hin eq_refl Hu Ht).
      cbn [select_related flat_map]. rewrite Hrel. reflexivity.
    + apply Z.ltb_ge in Ht. rewrite matches_none; [reflexivity|].
      intros r' Hr' Htok.
      assert (r' = r) by (apply (NoDup_map_inj token (objects T w)); trivial).
      subst r'. now right.
Qed.

(** X5. What the constraints of the token tables state is kept by every
    sequence of operations: no two rows of a table share a primary key or a
    secret. It holds of the store with no token. *)
Theorem token_columns_stay_unique (ops : list Op) (w : World) :
  store_ok w ->
  store_ok (run_ops env drf ops w) /\
  (forall T, NoDup (map token (objects T (run_ops env drf ops w)))) /\
  (forall us ms ss, store_ok (mkWorld us [] [] ms ss 0 0 0)).
Proof.
  intros H. pose proof (run_ops_store_ok env drf ops w H) as H'.
  split; [exact H'|]. split.
  - intros T. apply H'.
  - intros us ms ss T. destruct T; repeat split; cbn; try constructor;
      intros r [].
Qed.

End MoreServices.

(** The term [verify_email_confirm] at a concrete run. *)
Lemma verify_email_confirm_witness :
  NoDup (map token (email_verification_tokens MoreExamples.verifying)) /\
  In MoreExamples.pending (email_verification_tokens MoreExamples.verifying) /\
  clock Example.env (clock_reads MoreExamples.verifying)
  < expires_at MoreExamples.pending /\
  related_user (users MoreExamples.verifying) MoreExamples.pending
  = Some Example.alice /\
  exists w',
    verify_email Example.env "v0" MoreExamples.verifying = (Ok true, w').
Proof.
  assert (H1 : NoDup (map token
                        (email_verification_tokens MoreExamples.verifying))).
  { cbn. constructor; [intros []|constructor]. }
  assert (H2 : In MoreExamples.pending
                 (email_verification_tokens MoreExamples.verifying))
    by (left; reflexivity).
  assert (H3 : clock Example.env (clock_reads MoreExamples.verifying)
               < expires_at MoreExamples.pending)
    by (vm_compute; reflexivity).
  assert (H4 : related_user (users MoreExamples.verifying) MoreExamples.pending
               = Some Example.alice) by (vm_compute; reflexivity).
  split; [exact H1|split; [exact H2|split; [exact H3|split; [exact H4|]]]].
  destruct (verify_email_confirm Example.env Example.drf "v0"
              MoreExamples.verifying MoreExamples.pending Example.alice
              H1 H2 eq_refl eq_refl H3 H4) as [w' [H _]].
  exists w'. exact H.
Defined.

(** The term [password_reset_email_case_insensitive] at a concrete run. *)
Lemma password_reset_email_case_insensitive_witness :
  lower "A@B.com" = lower "a@b.COM" /\
  send_password_reset_email Example.env "A@B.com" Example.fresh
  = send_password_reset_email Example.env "a@b.COM" Example.fresh.
Proof.
  assert (H : lower "A@B.com" = lower "a@b.COM") by (vm_compute; reflexivity).
  split; [exact H|].
  exact (proj1 (password_reset_email_case_insensitive Example.env Example.drf
                  "A@B.com" "a@b.COM" Example.fresh H)).
Defined.

(** The term [is_valid_agrees_with_consume] at a concrete run. *)
Lemma is_valid_agrees_with_consume_witness :
  NoDup (map token (objects EmailVerificationToken MoreExamples.verifying)) /\
  In MoreExamples.pending
     (objects EmailVerificationToken MoreExamples.verifying) /\
  related_user (users MoreExamples.verifying) MoreExamples.pending
  = Some Example.alice /\
  fst (consume Example.env EmailVerificationToken
         (token MoreExamples.pending) "" MoreExamples.verifying)
  = fst (is_valid Example.env MoreExamples.pending MoreExamples.verifying).
Proof.
  assert (H1 : NoDup (map token
                 (objects EmailVerificationToken MoreExamples.verifying))).
  { cbn. constructor; [intros []|constructor]. }
  assert (H2 : In MoreExamples.pending
                 (objects EmailVerificationToken MoreExamples.verifying))
    by (left; reflexivity).
  assert (H4 : related_user (users MoreExamples.verifying) MoreExamples.pending
               = Some Example.alice) by (vm_compute; reflexivity).
  split; [exact H1|split; [exact H2|split; [exact H4|]]].
  exact (proj1 (is_valid_agrees_with_consume Example.env EmailVerificationToken
                  "" MoreExamples.verifying MoreExamples.pending Example.alice
                  H1 H2 H4)).
Defined.

(** The term [token_columns_stay_unique] at a concrete run. *)
Lemma token_columns_stay_unique_witness :
  store_ok Example.holding /\
  store_ok (run_ops Example.env Example.drf
              [SendPasswordResetEmail "a@b.com"; ResetPassword "k" "NewPass1!";
               CleanupExpiredTokens] Example.holding).
Proof.
  assert (H : store_ok Example.holding).
  { intros []; repeat split; cbn.
    - constructor; [intros []|constructor].
    - constructor; [intros []|constructor].
    - intros r [<-|[]]. cbn. lia.
    - constructor.
    - constructor.
    - intros r []. }
  split; [exact H|].
  exact (proj1 (token_columns_stay_unique Example.env Example.drf
                  [SendPasswordResetEmail "a@b.com";
                   ResetPassword "k" "NewPass1!"; CleanupExpiredTokens]
                  Example.holding H)).
Defined.

Section MoreViews.

Variable env : Env.
Variable drf : Framework.

Lemma filter_invalidated_others uid t rows :
  filter (fun r => negb (user_id r =? uid)%nat) (invalidated uid t rows)
  = filter (fun r => negb (user_id r =? uid)%nat) rows.
Proof.
  unfold invalidated. induction rows as [|r rows IH]; cbn; [reflexivity|].
  destruct (user_id r =? uid)%nat eqn:E; cbn [andb negb].
  - destruct (is_null (used_at r)); cbn; rewrite E; cbn; exact IH.
  - rewrite E. cbn. now rewrite IH.
Qed.

(** X6. An issuer writes to its own table and to the rows of its user only:
    the users, the sessions and the other token table are as before, the
    rows of the other users are as before, and a row that was used already
    keeps its [used_at]. *)
Theorem issuer_leaves_others_untouched
    (T : TokenModel) (user : User) (w : World) :
  (T = PasswordResetToken -> resolves w (email user) user) ->
  let w' := snd (issue env T user w) in
  users w' = users w /\
  sessions w' = sessions w /\
  (forall T', T' <> T -> objects T' w' = objects T' w) /\
  filter (fun r => negb (user_id r =? user_pk user)%nat) (objects T w')
  = filter (fun r => negb (user_id r =? user_pk user)%nat) (objects T w) /\
  (forall r, In r (objects T w) -> used_at r <> None -> In r (objects T w')).
Proof.
  intros Hres w'.
  destruct (issue_issue_for env T user w Hres) as (subj & path & E).
  assert (Ew : w' = snd (issue_for env T user subj path w))
    by (unfold w'; now rewrite E).
  assert (Hkeep : forall r, In r (objects T w) -> used_at r <> None ->
            In r (invalidated (user_pk user) (clock env (clock_reads w))
                              (objects T w))).
  { intros r Hr Hu. unfold invalidated. apply in_map_iff. exists r.
    split; trivial. destruct (used_at r); [|congruence].
    cbn. now rewrite andb_false_r. }
  rewrite Ew. rewrite issue_for_run. cbv zeta.
  destruct (insert_refused env T user w); cbn [snd]; unfold before_insert.
  - split; [destruct T; reflexivity|]. split; [destruct T; reflexivity|].
    split; [intros T' Hne; destruct T, T'; try reflexivity; congruence|].
    split.
    + replace (objects T (set_objects T _ _))
        with (invalidated (user_pk user) (clock env (clock_reads w))
                          (objects T w)) by (destruct T; reflexivity).
      apply filter_invalidated_others.
    + intros r Hr Hu.
      replace (objects T (set_objects T _ _))
        with (invalidated (user_pk user) (clock env (clock_reads w))
                          (objects T w)) by (destruct T; reflexivity).
      now apply Hkeep.
  - split; [destruct T; reflexivity|]. split; [destruct T; reflexivity|].
    split; [intros T' Hne; destruct T, T'; try reflexivity; congruence|].
    assert (Eo : forall W,
               objects T
                 (mkWorld (users (set_objects T W (before_insert env T user w)))
                    (password_reset_tokens
                       (set_objects T W (before_insert env T user w)))
                    (email_verification_tokens
                       (set_objects T W (before_insert env T user w)))
                    (outbox (set_objects T W (before_insert env T user w)) ++
                     [mkMail subj [email user]
                        (FRONTEND_URL env ++ path
                         ++ token_urlsafe env (random_draws w))%string (TTL T)])
                    (sessions (set_objects T W (before_insert env T user w)))
                    (clock_reads (set_objects T W (before_insert env T user w)))
                    (random_draws (set_objects T W (before_insert env T user w)))
                    (uuid_draws (set_objects T W (before_insert env T user w))))
               = W) by (intros W; destruct T; reflexivity).
    fold (before_insert env T user w). rewrite Eo.
    replace (objects T (before_insert env T user w))
      with (invalidated (user_pk user) (clock env (clock_reads w))
                        (objects T w))
      by (unfold before_insert; destruct T; reflexivity).
    split.
    + rewrite filter_app. cbn [filter new_row user_id].
      rewrite Nat.eqb_refl. cbn [negb]. rewrite app_nil_r.
      apply filter_invalidated_others.
    + intros r Hr Hu. apply in_or_app. left. now apply Hkeep.
Qed.


(** X8. A confirmation whose two passwords differ, or whose new password the
    validators refuse, is turned down by the serializer before the service
    is called: [PasswordResetConfirmView.post] raises the validation error
    and changes nothing, so the token is not used up by the failed
    attempt. *)
Theorem invalid_confirmation_keeps_token (request : Request) (w : World) :
  (forall a tok b pw c pw2,
      dict_get "token" (data request) = Some a -> CharField drf a = Some tok ->
      dict_get "new_password" (data request) = Some b ->
      CharField drf b = Some pw -> validate_password drf pw = true ->
      dict_get "new_password_confirm" (data request) = Some c ->
      CharField drf c = Some pw2 ->
      pw <> pw2 ->
      PasswordResetConfirmView_post env drf request w =
      (Raise (ValidationError ["new_password_confirm"]), w)) /\
  (forall b pw,
      dict_get "new_password" (data request) = Some b ->
      CharField drf b = Some pw -> validate_password drf pw = false ->
      exists fields,
        PasswordResetConfirmView_post env drf request w =
        (Raise (ValidationError fields), w) /\ In "new_password" fields) /\
  (forall e w',
      PasswordResetConfirmView_post env drf request w = (Raise e, w') ->
      (exists fields, e = ValidationError fields) -> w' = w).
Proof.
  split; [|split].
  - intros a tok b pw c pw2 Ha Htok Hb Hpw Hval Hc Hpw2 Hne.
    unfold PasswordResetConfirmView_post, PasswordResetConfirmSerializer,
      run_field.
    rewrite Ha, Htok, Hb, Hpw, Hval, Hc, Hpw2.
    destruct (String.eqb_spec pw pw2) as [E|_]; [contradiction|].
    reflexivity.
  - intros b pw Hb Hpw Hval.
    unfold PasswordResetConfirmView_post, PasswordResetConfirmSerializer,
      run_field.
    rewrite Hb, Hpw, Hval.
    destruct (dict_get "token" (data request)) as [a|];
      [destruct (CharField drf a)|];
      (destruct (dict_get "new_password_confirm" (data request)) as [c|];
       [destruct (CharField drf c)|]);
      eexists; (split; [reflexivity|cbn; auto]).
  - intros e w' H [fields ->].
    unfold PasswordResetConfirmView_post, bind in H.
    destruct (PasswordResetConfirmSerializer drf (data request) w)
      as [[[tok pw]|e] w0] eqn:Es.
    + destruct (reset_password env tok pw w0) as [[[]|e] w1] eqn:Er;
        try discriminate H.
      inversion H; subst; clear H.
      change (reset_password env tok pw)
        with (consume env PasswordResetToken tok pw) in Er.
      rewrite consume_consume_with, consume_with_run in Er.
      destruct (select_related _ _) as [|[r u] [|x l]]; discriminate Er.
    + inversion H; subst; clear H.
      unfold PasswordResetConfirmSerializer in Es.
      destruct (run_field (CharField drf) "token" (data request));
        destruct (run_field _ "new_password" (data request));
        destruct (run_field (CharField drf) "new_password_confirm"
                            (data request));
        try (inversion Es; reflexivity).
      destruct (negb (String.eqb s0 s1)); inversion Es; reflexivity.
Qed.

End MoreViews.

(** ** Strings: the client address and the profile names *)

Section Strings.














End Strings.

(** ** Round trip, frames and the login address *)

Section RoundTrip.

Variable env : Env.
Variable drf : Framework.

Lemma existsb_find_user us pk :
  existsb (fun u => (user_pk u =? pk)%nat) us = true ->
  exists u, find (fun u => (user_pk u =? pk)%nat) us = Some u.
Proof.
  induction us as [|x us IH]; cbn; [discriminate|].
  destruct (user_pk x =? pk)%nat; cbn; eauto.
Qed.

(** X11. The secret an issuer mails is the one the consumer accepts: after
    [send_password_reset_email] (or [send_verification_email]) has inserted
    its row, the mail it handed to the dispatcher carries the link with the
    new secret, and [reset_password] (or [verify_email]) called with that
    secret before the expiry returns [True]. *)
Theorem issued_secret_is_accepted
    (T : TokenModel) (user : User) (new_password : string) (w : World) :
  (T = PasswordResetToken -> resolves w (email user) user) ->
  insert_refused env T user w = false ->
  NoDup (map token (objects T w)) ->
  clock env (S (S (S (clock_reads w))))
  < clock env (S (clock_reads w)) + timedelta_hours (TTL T) ->
  let w' := snd (issue env T user w) in
  let secret := token_urlsafe env (random_draws w) in
  (exists subj path,
      outbox w' =
      (outbox w ++
       [mkMail subj [email user] (FRONTEND_URL env ++ path ++ secret)%string
               (TTL T)])%list) /\
  fst (consume env T secret new_password w') = Ok true.
Proof.
  intros Hres Hins Hnd Ht w' secret.
  destruct (issue_issue_for env T user w Hres) as (subj & path & E).
  assert (Ew : w' = set_objects T
                 (objects T (before_insert env T user w)
                  ++ [new_row env T user w])
                 (mkWorld (users w) (password_reset_tokens w)
                    (email_verification_tokens w)
                    (outbox w ++
                     [mkMail subj [email user]
                        (FRONTEND_URL env ++ path ++ secret)%string (TTL T)])
                    (sessions w) (S (S (S (clock_reads w))))
                    (S (random_draws w)) (S (uuid_draws w)))).
  { unfold w'. rewrite E, issue_for_run. cbv zeta. rewrite Hins. cbn [snd].
    unfold before_insert. destruct T; reflexivity. }
  assert (Erows : objects T w' =
            (invalidated (user_pk user) (clock env (clock_reads w)) (objects T w)
             ++ [new_row env T user w])%list).
  { rewrite Ew, objects_set_objects. unfold before_insert.
    now rewrite objects_set_objects. }
  split.
  - exists subj, path. rewrite Ew. destruct T; reflexivity.
  - unfold insert_refused in Hins. apply orb_false_iff in Hins.
    destruct Hins as [Hfresh Huser]. apply negb_false_iff in Huser.
    destruct (existsb_find_user _ _ Huser) as [u0 Hu0].
    assert (Hnd' : NoDup (map token (objects T w'))).
    { rewrite Erows, map_app. cbn [map new_row token].
      assert (Em : map token (invalidated (user_pk user)
                                (clock env (clock_reads w)) (objects T w))
                   = map token (objects T w)).
      { unfold invalidated. apply map_map_same.
        intros x _. destruct (_ && _); reflexivity. }
      rewrite Em. apply NoDup_app; repeat split; trivial.
      - constructor; [intros []|constructor].
      - intros a Ha [<-|[]]. rewrite <- Em in Ha. apply in_map_iff in Ha.
        destruct Ha as [r [Er Hr]].
        assert (Hex : existsb
                  (fun r => (token r =? token_urlsafe env (random_draws w))%string)
                  (invalidated (user_pk user) (clock env (clock_reads w))
                               (objects T w)) = true); [|congruence].
        apply existsb_exists. exists r. split; trivial.
        now apply String.eqb_eq. }
    rewrite consume_consume_with, consume_with_run.
    assert (Eu : users w' = users w) by (rewrite Ew; destruct T; reflexivity).
    assert (Ec : clock_reads w' = S (S (S (clock_reads w))))
      by (rewrite Ew; destruct T; reflexivity).
    rewrite Eu, Ec.
    rewrite (matches_unique secret _ _ (new_row env T user w) Hnd').
    + cbn [select_related flat_map]. unfold related_user.
      cbn [new_row user_id]. rewrite Hu0. reflexivity.
    + rewrite Erows. apply in_or_app. right. now left.
    + reflexivity.
    + reflexivity.
    + cbn [new_row expires_at]. exact Ht.
Qed.

(** X12. Whatever it returns, a consumer writes nothing but the [used_at]
    of a token of its own table and the password or the verified flag (with
    [updated_at]) of a user: the other table and the dispatcher's log are
    as before; no row appears or disappears; no secret, owner or expiry of
    a token and no email or active flag of a user changes; and
    [reset_password] never sets [email_verified], [verify_email] never
    changes a password. Primary keys are taken to be unique. *)
Theorem consumer_frame (T : TokenModel) (tok new_password : string) (w : World) :
  NoDup (map token_pk (objects T w)) ->
  let w' := snd (consume env T tok new_password w) in
  (forall T', T' <> T -> objects T' w' = objects T' w) /\
  outbox w' = outbox w /\
  sessions w' = sessions w /\
  map token (objects T w') = map token (objects T w) /\
  map user_id (objects T w') = map user_id (objects T w) /\
  map expires_at (objects T w') = map expires_at (objects T w) /\
  map email (users w') = map email (users w) /\
  map is_active (users w') = map is_active (users w) /\
  map user_pk (users w') = map user_pk (users w) /\
  (T = PasswordResetToken ->
   map email_verified (users w') = map email_verified (users w)) /\
  (T = EmailVerificationToken ->
   map password (users w') = map password (users w)).
Proof.
  intros Hpk. cbv zeta. rewrite consume_consume_with, consume_with_run.
  destruct (select_related _ _) as [|[r u] [|x l]] eqn:E; cbn [snd];
    try (repeat split; try reflexivity;
         try (intros T' _; destruct T'; reflexivity);
         destruct T; reflexivity).
  assert (Hin : In (r, u) (select_related (users w)
             (filter (matches tok (clock env (clock_reads w))) (objects T w))))
    by (rewrite E; now left).
  apply in_select_related in Hin. destruct Hin as [Hin _].
  apply filter_In in Hin. destruct Hin as [Hin _].
  assert (Hobj : forall W U,
             objects T (set_users U (tick (set_objects T W (tick (tick w)))))
             = W) by (intros; destruct T; reflexivity).
  assert (Husers : forall W U,
             users (set_users U (tick (set_objects T W (tick (tick w))))) = U)
    by (intros; destruct T; reflexivity).
  rewrite Hobj, Husers.
  assert (Hmap : forall (B : Type) (g : Token -> B),
             (forall t x, g (set_used_at t x) = g x) ->
             map g (map (fun r' => if (token_pk r' =? token_pk r)%nat
                          then set_used_at (clock env (S (clock_reads w))) r
                          else r') (objects T w)) = map g (objects T w)).
  { intros B g Hg. apply map_map_same. intros x Hx.
    destruct (token_pk x =? token_pk r)%nat eqn:Ex; trivial.
    rewrite Hg. apply Nat.eqb_eq in Ex.
    now rewrite (NoDup_map_inj token_pk _ x r Hpk Hx Hin Ex). }
  assert (Hum : forall (B : Type) (g : User -> B) (f : User -> User) t,
             (forall x, g (set_updated_at t (f x)) = g x) ->
             map g (map (fun x => if (user_pk x =? user_pk u)%nat
                                  then set_updated_at t (f x) else x) (users w))
             = map g (users w)).
  { intros B g f t Hg. apply map_map_same. intros x _.
    destruct (_ =? _)%nat; auto. }
  split; [intros T' Hne; destruct T, T'; try reflexivity; congruence|].
  split; [destruct T; reflexivity|]. split; [destruct T; reflexivity|].
  split; [apply Hmap; reflexivity|].
  split; [apply Hmap; reflexivity|].
  split; [apply Hmap; reflexivity|].
  split; [apply Hum; destruct T; reflexivity|].
  split; [apply Hum; destruct T; reflexivity|].
  split; [apply Hum; destruct T; reflexivity|].
  split; intros ->; apply Hum; reflexivity.
Qed.

End RoundTrip.

(** ** Used rows are final *)

Section UsedRows.

Variable env : Env.
Variable drf : Framework.

(** The shapes a token table can take after one operation, with what the
    consumer knows of the row it marks. *)
Lemma run_op_rows op w T :
  let rows := objects T w in
  let rows' := objects T (run_op env drf op w) in
  rows' = rows \/
  (exists r t, In r rows /\ used_at r = None /\
               rows' = map (fun r' => if (token_pk r' =? token_pk r)%nat
                                      then set_used_at t r else r') rows) \/
  (exists t, rows' = filter (fun r => negb (expires_at r <? t)) rows) \/
  (exists uid t, rows' = invalidated uid t rows) \/
  (exists uid t nr, rows' = (invalidated uid t rows ++ [nr])%list /\
                    token_pk nr = uuid_draws w).
Proof.
  cbv zeta.
  assert (Hi : forall T0 user subj path,
             objects T (snd (issue_for env T0 user subj path w)) = objects T w \/
             (exists uid t, objects T (snd (issue_for env T0 user subj path w))
                            = invalidated uid t (objects T w)) \/
             (exists uid t nr,
                 objects T (snd (issue_for env T0 user subj path w))
                 = (invalidated uid t (objects T w) ++ [nr])%list /\
                 token_pk nr = uuid_draws w)).
  { intros T0 user subj path.
    destruct (TokenModel_eq_dec T0 T) as [->|Hne].
    - destruct (issue_for_objects env T user subj path w)
        as [_ [[_ H]|[_ H]]]; rewrite H.
      + right. left. eauto.
      + right. right. do 3 eexists. split; reflexivity.
    - left. rewrite issue_for_run. cbv zeta.
      destruct (insert_refused env T0 user w); unfold before_insert;
        destruct T0, T; try reflexivity; congruence. }
  assert (Hc : forall T0 tok write,
             objects T (snd (consume_with env T0 tok write w)) = objects T w \/
             (exists r t, In r (objects T w) /\ used_at r = None /\
                 objects T (snd (consume_with env T0 tok write w))
                 = map (fun r' => if (token_pk r' =? token_pk r)%nat
                                  then set_used_at t r else r') (objects T w))).
  { intros T0 tok write. rewrite consume_with_run.
    destruct (select_related _ _) as [|[r u] [|x l]] eqn:E; cbn [snd];
      try (left; destruct T; reflexivity).
    destruct (TokenModel_eq_dec T0 T) as [->|Hne].
    - right. exists r, (clock env (S (clock_reads w))).
      assert (Hin : In (r, u) (select_related (users w)
                 (filter (matches tok (clock env (clock_reads w)))
                         (objects T w)))) by (rewrite E; now left).
      apply in_select_related in Hin. destruct Hin as [Hin _].
      apply filter_In in Hin. destruct Hin as [Hin Hm].
      unfold matches in Hm. apply andb_true_iff in Hm. destruct Hm as [Hm _].
      apply andb_true_iff in Hm. destruct Hm as [_ Hm].
      split; [exact Hin|]. split; [destruct (used_at r); [discriminate|auto]|].
      destruct T; reflexivity.
    - left. destruct T0, T; try reflexivity; congruence. }
  destruct op; cbn [run_op].
  - rewrite send_verification_email_issue_for.
    destruct (Hi EmailVerificationToken user "Verify your email address"
                 "/verify-email?token=") as [H|[H|H]]; auto.
  - change (verify_email env tok)
      with (consume env EmailVerificationToken tok "").
    rewrite consume_consume_with. destruct (Hc EmailVerificationToken tok
      (set_email_verified true)) as [H|H]; auto.
  - rewrite send_password_reset_email_issue_for.
    destruct (filter _ (users w)) as [|u [|u' us]]; auto.
    destruct (Hi PasswordResetToken u "Reset your password"
                 "/reset-password?token=") as [H|[H|H]]; auto.
  - change (reset_password env tok new_password)
      with (consume env PasswordResetToken tok new_password).
    rewrite consume_consume_with. destruct (Hc PasswordResetToken tok
      (set_password (make_password env new_password))) as [H|H]; auto.
  - right. right. left. exists (clock env (clock_reads w)).
    rewrite cleanup_expired_tokens_run. destruct T; reflexivity.
  - assert (Er : objects T (snd (ResendVerificationView_post env user w)) =
                 if email_verified user then objects T w
                 else objects T (snd (issue_for env EmailVerificationToken user
                                        "Verify your email address"
                                        "/verify-email?token=" w))).
    { unfold ResendVerificationView_post.
      destruct (email_verified user); [reflexivity|].
      rewrite send_verification_email_issue_for. unfold bind.
      destruct (issue_for env EmailVerificationToken user _ _ w)
        as [[[]|e] w']; reflexivity. }
    rewrite Er. destruct (email_verified user); [now left|].
    destruct (Hi EmailVerificationToken user "Verify your email address"
                 "/verify-email?token=") as [H|[H|H]]; auto.
  - left. apply LoginView_post_tokens.
  - left. apply LogoutView_post_tokens.
Qed.

Lemma used_row_kept_op op w T r0 :
  table_ok w T ->
  (token_pk r0 < uuid_draws w)%nat ->
  used_at r0 <> None ->
  (forall r', In r' (objects T w) -> token_pk r' = token_pk r0 -> r' = r0) ->
  forall r', In r' (objects T (run_op env drf op w)) ->
             token_pk r' = token_pk r0 -> r' = r0.
Proof.
  intros (Hpk & _ & Hlt) Hr0 Hu Hinv.
  assert (Hinvd : forall uid t r',
             In r' (invalidated uid t (objects T w)) ->
             token_pk r' = token_pk r0 -> r' = r0).
  { intros uid t r' Hr' Epk. unfold invalidated in Hr'.
    apply in_map_iff in Hr'. destruct Hr' as [y [Hy Hyin]].
    assert (Ey : token_pk y = token_pk r0).
    { rewrite <- Epk, <- Hy. destruct (_ && _); reflexivity. }
    pose proof (Hinv y Hyin Ey) as ->.
    destruct (used_at r0) eqn:E0; [|congruence].
    rewrite andb_false_r in Hy. congruence. }
  destruct (run_op_rows op w T) as [E|[(r & t & Hr & Hru & E)|[(t & E)|
    [(uid & t & E)|(uid & t & nr & E & Enr)]]]]; rewrite E; intros r' Hr' Epk.
  - now apply Hinv.
  - apply in_map_iff in Hr'. destruct Hr' as [y [Hy Hyin]].
    destruct (token_pk y =? token_pk r)%nat eqn:Ey; subst r'.
    + exfalso. cbn in Epk. pose proof (Hinv r Hr Epk). congruence.
    + now apply Hinv.
  - apply filter_In in Hr'. apply Hinv; tauto.
  - now apply (Hinvd uid t).
  - apply in_app_or in Hr'. destruct Hr' as [Hr'|[<-|[]]].
    + now apply (Hinvd uid t).
    + exfalso. lia.
Qed.

(** X13. Once [used_at] is set on a token row, no operation writes to the
    row again: after every sequence of operations the row with that primary
    key is either still the very same row, [used_at] included, or it has
    been deleted by the sweep. The tables are taken to satisfy their
    constraints. *)
Theorem used_row_is_final (ops : list Op) (w : World) (T : TokenModel) (r0 : Token) :
  store_ok w ->
  In r0 (objects T w) ->
  used_at r0 <> None ->
  forall r', In r' (objects T (run_ops env drf ops w)) ->
             token_pk r' = token_pk r0 -> r' = r0.
Proof.
  intros Hok Hin Hu.
  assert (H0 : (token_pk r0 < uuid_draws w)%nat) by (apply (Hok T), Hin).
  assert (Hinv : forall r', In r' (objects T w) ->
                            token_pk r' = token_pk r0 -> r' = r0).
  { intros r' Hr' E. destruct (Hok T) as (Hpk & _).
    now apply (NoDup_map_inj token_pk (objects T w)). }
  clear Hin. revert w Hok H0 Hinv.
  induction ops as [|op ops IH]; intros w Hok H0 Hinv; cbn; [exact Hinv|].
  apply IH.
  - intros T'. eapply table_ok_step;
      [apply run_op_step|apply run_op_draws|apply Hok].
  - pose proof (run_op_draws env drf op w) as [_ H]. lia.
  - now apply used_row_kept_op.
Qed.

End UsedRows.

(** ** Login address and permissions *)

Section LoginAddress.

Variable env : Env.
Variable drf : Framework.


End LoginAddress.

Module PermissionFacts.

Import Permissions.

(** X15. The ownership checks of [permissions.py]. A write that
    [IsOwnerOrReadOnly] lets through, [IsOwner] lets through as well, but not
    the other way round: for an object that names its owner in the attribute
    [owner] only, [IsOwner] lets the owner through and [IsOwnerOrReadOnly]
    turns the owner's write down. When [created_by] is present it alone
    decides, whatever [user] holds. The anonymous user owns nothing. *)
Theorem ownership_checks :
  (forall method ru obj,
      is_safe method = false ->
      IsOwnerOrReadOnly method ru obj = true -> IsOwner ru obj = true) /\
  (forall method u,
      is_safe method = false ->
      let obj := mkObj None None (Some (Some (user_pk u))) in
      IsOwner (Some u) obj = true /\
      IsOwnerOrReadOnly method (Some u) obj = false) /\
  (forall method ru obj, is_safe method = true ->
                         IsOwnerOrReadOnly method ru obj = true) /\
  (forall ru held other own,
      IsOwner ru (mkObj (Some held) other own) = same_user held ru) /\
  (forall obj, IsOwner None obj = false).
Proof.
  split; [|split; [|split; [|split]]].
  - intros method ru obj Hs. unfold IsOwnerOrReadOnly, IsOwner. rewrite Hs.
    destruct (created_by obj); trivial.
    destruct (obj_user obj); trivial. discriminate.
  - intros method u Hs obj. unfold IsOwnerOrReadOnly, IsOwner. rewrite Hs.
    cbn. now rewrite Nat.eqb_refl.
  - intros method ru obj Hs. unfold IsOwnerOrReadOnly. now rewrite Hs.
  - reflexivity.
  - intros obj. unfold IsOwner, same_user.
    destruct (created_by obj) as [[]|]; trivial.
    destruct (obj_user obj) as [[]|]; trivial.
    destruct (owner obj) as [[]|]; trivial.
Qed.

(** X16. [CanDeleteObject] lets every request through that is not a
    [DELETE]; a [DELETE] it grants to staff, and to a user who is not staff
    exactly when the object's [created_by] is that user: the owner of an
    object that records its owner in [user] only, whom [IsOwner] lets
    through, may not delete it. *)
Theorem delete_permission :
  (forall method ru obj,
      method <> "DELETE" -> CanDeleteObject method ru obj = true) /\
  (forall u obj, is_staff u = true ->
                 CanDeleteObject "DELETE" (Some u) obj = true) /\
  (forall u obj,
      is_staff u = false ->
      CanDeleteObject "DELETE" (Some u) obj =
      match created_by obj with
      | Some held => same_user held (Some u)
      | None => false
      end) /\
  (forall u,
      is_staff u = false ->
      let obj := mkObj None (Some (Some (user_pk u))) None in
      IsOwner (Some u) obj = true /\
      CanDeleteObject "DELETE" (Some u) obj = false) /\
  (forall obj, CanDeleteObject "DELETE" None obj = false).
Proof.
  split; [|split; [|split; [|split]]].
  - intros method ru obj Hne. unfold CanDeleteObject.
    destruct (String.eqb_spec method "DELETE"); [contradiction|reflexivity].
  - intros u obj Hs. unfold CanDeleteObject. cbn. now rewrite Hs.
  - intros u obj Hs. unfold CanDeleteObject. cbn. now rewrite Hs.
  - intros u Hs obj. unfold CanDeleteObject, IsOwner. cbn.
    now rewrite Hs, Nat.eqb_refl.
  - intros obj. unfold CanDeleteObject. cbn.
    destruct (created_by obj) as [[]|]; reflexivity.
Qed.

(** X17. The checks on the requesting user: [IsEmailVerified] grants exactly
    the users whose email is verified, and never the anonymous user;
    [IsNotAuthenticated] grants exactly the anonymous user, so the two never
    grant the same request; [IsAdminOrReadOnly] grants a write exactly to
    staff and a read exactly to the users who are logged in. *)
Theorem user_checks :
  (forall u, IsEmailVerified (Some u) = email_verified u) /\
  IsEmailVerified None = false /\
  (forall ru, IsNotAuthenticated ru = true <-> ru = None) /\
  (forall ru, IsEmailVerified ru = true -> IsNotAuthenticated ru = false) /\
  (forall method u, is_safe method = false ->
                    IsAdminOrReadOnly method (Some u) = is_staff u) /\
  (forall method, is_safe method = false ->
                  IsAdminOrReadOnly method None = false) /\
  (forall method ru, is_safe method = true ->
                     IsAdminOrReadOnly method ru = is_authenticated ru).
Proof.
  repeat split.
  - destruct ru; [discriminate|reflexivity].
  - intros ->. reflexivity.
  - destruct ru; [reflexivity|discriminate].
  - intros method u Hs. unfold IsAdminOrReadOnly. now rewrite Hs.
  - intros method Hs. unfold IsAdminOrReadOnly. now rewrite Hs.
  - intros method ru Hs. unfold IsAdminOrReadOnly. now rewrite Hs.
Qed.

(** X18. [HasRole] lets every request through when the view requires no
    role (no attribute, or an empty one). When a role is required, the
    anonymous user is turned down, and so is every user of this repository's
    [User] model, which has neither a [roles] nor a [role] attribute; with
    both attributes present, [roles] alone decides. *)
Theorem role_check :
  (forall ru roles role, HasRole None ru roles role = true) /\
  (forall ru roles role, HasRole (Some "") ru roles role = true) /\
  (forall required roles role,
      required <> "" -> HasRole (Some required) None roles role = false) /\
  (forall required u,
      required <> "" -> HasRole (Some required) (Some u) None None = false) /\
  (forall required u names role,
      required <> "" ->
      HasRole (Some required) (Some u) (Some names) role
      = existsb (fun n => String.eqb n required) names).
Proof.
  split; [|split; [|split; [|split]]]; try reflexivity.
  - intros required roles role Hne. unfold HasRole. cbn.
    destruct (String.eqb_spec required ""); [contradiction|reflexivity].
  - intros required u Hne. unfold HasRole. cbn.
    destruct (String.eqb_spec required ""); [contradiction|reflexivity].
  - intros required u names role Hne. unfold HasRole. cbn.
    destruct (String.eqb_spec required ""); [contradiction|reflexivity].
Qed.

End PermissionFacts.

Section MalformedEmail.

Variable env : Env.
Variable drf : Framework.

(** X19. The uniform 200 of [PasswordResetRequestView.post] is for emails
    the serializer accepts: a body without [email], or with an email the
    field refuses, raises a validation error on [email]; the service is not
    called and nothing changes. *)
Theorem malformed_email_is_rejected (request : Request) (w : World) :
  (dict_get "email" (data request) = None ->
   PasswordResetRequestView_post env drf request w
   = (Raise (ValidationError ["email"]), w)) /\
  (forall v, dict_get "email" (data request) = Some v ->
             EmailField drf v = None ->
             PasswordResetRequestView_post env drf request w
             = (Raise (ValidationError ["email"]), w)) /\
  (forall resp w',
      PasswordResetRequestView_post env drf request w = (Ok resp, w') ->
      exists v v', dict_get "email" (data request) = Some v /\
                   EmailField drf v = Some v').
Proof.
  unfold PasswordResetRequestView_post, PasswordResetRequestSerializer,
    run_field.
  split; [|split].
  - intros ->. reflexivity.
  - intros v -> ->. reflexivity.
  - intros resp w'.
    destruct (dict_get "email" (data request)) as [v|];
      [destruct (EmailField drf v) as [v'|] eqn:E|];
      try (intros H; discriminate H).
    intros _. eauto.
Qed.

End MalformedEmail.

(** ** The further properties at concrete runs *)

(** The term [issuer_leaves_others_untouched] at a concrete run. *)
Lemma issuer_leaves_others_untouched_witness :
  resolves MoreExamples.spent (email Example.alice) Example.alice /\
  users (snd (issue Example.env PasswordResetToken Example.alice
                    MoreExamples.spent))
  = users MoreExamples.spent.
Proof.
  assert (H : resolves MoreExamples.spent (email Example.alice) Example.alice)
    by (vm_compute; reflexivity).
  split; [exact H|].
  exact (proj1 (issuer_leaves_others_untouched Example.env PasswordResetToken
                  Example.alice MoreExamples.spent (fun _ => H))).
Defined.

(** The term [issued_secret_is_accepted] at a concrete run. *)
Lemma issued_secret_is_accepted_witness :
  resolves Example.fresh (email Example.alice) Example.alice /\
  insert_refused Example.env PasswordResetToken Example.alice Example.fresh
  = false /\
  clock Example.env (S (S (S (clock_reads Example.fresh))))
  < clock Example.env (S (clock_reads Example.fresh))
    + timedelta_hours (TTL PasswordResetToken) /\
  fst (consume Example.env PasswordResetToken
         (token_urlsafe Example.env (random_draws Example.fresh)) "NewPass1!"
         (snd (issue Example.env PasswordResetToken Example.alice
                     Example.fresh)))
  = Ok true.
Proof.
  assert (H1 : resolves Example.fresh (email Example.alice) Example.alice)
    by (vm_compute; reflexivity).
  assert (H2 : insert_refused Example.env PasswordResetToken Example.alice
                 Example.fresh = false) by (vm_compute; reflexivity).
  assert (H3 : NoDup (map token (objects PasswordResetToken Example.fresh)))
    by constructor.
  assert (H4 : clock Example.env (S (S (S (clock_reads Example.fresh))))
               < clock Example.env (S (clock_reads Example.fresh))
                 + timedelta_hours (TTL PasswordResetToken))
    by (vm_compute; reflexivity).
  split; [exact H1|split; [exact H2|split; [exact H4|]]].
  exact (proj2 (issued_secret_is_accepted Example.env PasswordResetToken
                  Example.alice "NewPass1!" Example.fresh
                  (fun _ => H1) H2 H3 H4)).
Defined.

(** The term [consumer_frame] at a concrete run. *)
Lemma consumer_frame_witness :
  NoDup (map token_pk (objects PasswordResetToken Example.holding)) /\
  outbox (snd (consume Example.env PasswordResetToken "s0" "NewPass1!"
                       Example.holding))
  = outbox Example.holding.
Proof.
  assert (H : NoDup (map token_pk (objects PasswordResetToken Example.holding))).
  { cbn. constructor; [intros []|constructor]. }
  split; [exact H|].
  exact (proj1 (proj2 (consumer_frame Example.env PasswordResetToken "s0"
                         "NewPass1!" Example.holding H))).
Defined.

(** The term [used_row_is_final] at a concrete run. *)
Lemma used_row_is_final_witness :
  store_ok MoreExamples.spent /\
  In MoreExamples.spent_row (objects PasswordResetToken MoreExamples.spent) /\
  used_at MoreExamples.spent_row <> None /\
  forall r',
    In r' (objects PasswordResetToken
             (run_ops Example.env Example.drf
                [SendPasswordResetEmail "a@b.com"; ResetPassword "s0" "NewPass1!"]
                MoreExamples.spent)) ->
    token_pk r' = token_pk MoreExamples.spent_row ->
    r' = MoreExamples.spent_row.
Proof.
  assert (H1 : store_ok MoreExamples.spent).
  { intros []; repeat split; cbn.
    - constructor; [intros []|constructor].
    - constructor; [intros []|constructor].
    - intros r [<-|[]]. cbn. lia.
    - constructor.
    - constructor.
    - intros r []. }
  assert (H2 : In MoreExamples.spent_row
                 (objects PasswordResetToken MoreExamples.spent))
    by (left; reflexivity).
  assert (H3 : used_at MoreExamples.spent_row <> None) by discriminate.
  split; [exact H1|split; [exact H2|split; [exact H3|]]].
  exact (used_row_is_final Example.env Example.drf
           [SendPasswordResetEmail "a@b.com"; ResetPassword "s0" "NewPass1!"]
           MoreExamples.spent PasswordResetToken MoreExamples.spent_row
           H1 H2 H3).
Defined.

